(** * firebase-chat-ready-api: the room / message protocol of [src/index.js]

    A shallow embedding of the chat layer of [index.js] over a model of the
    document store it talks to, and the properties of the room state
    machine, the per-user room index, the message log and the mutual-room
    removal that the specification states.

    Conventions.
    - JavaScript values are the inductive [value]; property reads, lodash
      predicates and strict equality are functions on it.
    - Synchronous code that can throw returns a [completion].
    - The document store is a finite map from document paths to field
      lists.  A store call takes effect when it is issued; the callback
      chained on it with [.then] runs later, as a step of its own.  Each
      asynchronous operation is therefore written as the sequence of its
      callbacks (one definition per callback, named after the function it
      belongs to), and a sequential run composes them in issue order.
    - [Date.now()] and the key drawn by [doc()] without argument are inputs
      ([now], [newId]).
    - Callbacks supplied by the caller ([onComplete], [action]) are not
      run: the calls made to them are recorded with their arguments.

    The embedding covers [createChatRoom], [addToMemberConversations],
    [joinChatRoom], the [Message] constructor and [updateBody], and the
    [ChatRoom] methods [setNewTitle], [remove], [removeMutualChatRooms],
    [sendMessage], [getUserChatRooms] and [getMessagesAndListen]. *)

From Stdlib Require Import ZArith Lia.
From stdpp Require Import base option list strings gmap.

Open Scope string_scope.
Open Scope list_scope.
Local Set Warnings "-register-all".

(** ** JavaScript values *)

Inductive value : Type :=
| VUndefined
| VNull
| VBool (b : bool)
| VNum (n : Z)
| VStr (s : string)
| VArr (items : list value)
| VObj (fields : list (string * value))
| VRef (path : list string).

(** The errors the module raises (lines 8-10), the [TypeError] of the
    language, and a failure reported by the store. *)
Inductive error : Type :=
| ChatRoomError (msg : string)
| InitializeAppError (msg : string)
| MessageError (msg : string)
| TypeError
| StoreError (code : string).

Inductive completion (A : Type) : Type :=
| Normal (a : A)
| Throw (e : error).
Arguments Normal {A} a.
Arguments Throw {A} e.

Definition bind {A B} (c : completion A) (k : A → completion B) : completion B :=
  match c with
  | Normal a => k a
  | Throw e => Throw e
  end.

#[global] Instance completion_bind : MBind completion :=
  fun A B k c => bind c k.

Definition is_throw {A} (c : completion A) : bool :=
  match c with Throw _ => true | Normal _ => false end.

(** *** Objects as ordered field lists *)

Fixpoint obj_get (k : string) (fields : list (string * value)) : option value :=
  match fields with
  | [] => None
  | (k', v) :: rest => if decide (k = k') then Some v else obj_get k rest
  end.

(** [o[k] = v]: an existing key keeps its position, a new one is appended. *)
Fixpoint obj_set (k : string) (v : value) (fields : list (string * value))
  : list (string * value) :=
  match fields with
  | [] => [(k, v)]
  | (k', v') :: rest =>
      if decide (k = k') then (k, v) :: rest else (k', v') :: obj_set k v rest
  end.

(** [Object.keys] *)
Definition keys (fields : list (string * value)) : list string := fields.*1.

(** [Array.prototype.includes] on a list of strings *)
Definition includes (l : list string) (x : string) : bool := bool_decide (x ∈ l).

(** ToBoolean *)
Definition truthy (v : value) : bool :=
  match v with
  | VUndefined | VNull => false
  | VBool b => b
  | VNum n => negb (n =? 0)%Z
  | VStr s => negb (bool_decide (s = ""))
  | VArr _ | VObj _ | VRef _ => true
  end.

(** [a || b] on values *)
Definition js_or (a b : value) : value := if truthy a then a else b.

(** [a === b].  Primitives compare by content.  Two objects compare by
    identity; every comparison in the module is between a value read from
    a room and a value supplied by the caller, which are never the same
    object, so it is [false] there. *)
Definition strict_eq (a b : value) : bool :=
  match a, b with
  | VUndefined, VUndefined => true
  | VNull, VNull => true
  | VBool x, VBool y => bool_decide (x = y)
  | VNum x, VNum y => bool_decide (x = y)
  | VStr x, VStr y => bool_decide (x = y)
  | _, _ => false
  end.

(** [v.k] *)
Definition get_prop (v : value) (k : string) : completion value :=
  match v with
  | VUndefined | VNull => Throw TypeError
  | VObj fields => Normal (default VUndefined (obj_get k fields))
  | VRef path => Normal (if decide (k = "id") then from_option VStr VUndefined (last path)
                         else VUndefined)
  | VBool _ | VNum _ | VStr _ | VArr _ => Normal VUndefined
  end.

Definition index_key (i : nat) : string :=
  match i with 0 => "0" | 1 => "1" | _ => "" end.

(** [v[i]] for the two indices the module uses, 0 and 1 *)
Definition get_index (v : value) (i : nat) : completion value :=
  match v with
  | VUndefined | VNull => Throw TypeError
  | VArr items => Normal (default VUndefined (items !! i))
  | VObj fields => Normal (default VUndefined (obj_get (index_key i) fields))
  | VStr s => Normal (if decide (i < String.length s) then VStr (String.substring i 1 s)
                      else VUndefined)
  | VBool _ | VNum _ | VRef _ => Normal VUndefined
  end.

(** *** lodash *)

Module lodash.

Definition isString (v : value) : bool :=
  match v with VStr _ => true | _ => false end.

Definition isObject (v : value) : bool :=
  match v with VArr _ | VObj _ | VRef _ => true | _ => false end.

Definition isObjectLike (v : value) : bool := isObject v.

(** Empty: [null], [undefined], numbers and booleans, the empty string,
    array and object.  A document reference has own properties. *)
Definition isEmpty (v : value) : bool :=
  match v with
  | VUndefined | VNull | VBool _ | VNum _ => true
  | VStr s => bool_decide (s = "")
  | VArr items => bool_decide (items = [])
  | VObj fields => match fields with [] => true | _ => false end
  | VRef _ => false
  end.

End lodash.

(** ** The document store

    The store is the external collaborator of the module: documents are
    addressed by the path [collection; key], or
    [collection; key; subcollection; key] for the messages of a room, and
    hold a field list.  [get] never fails, [set] creates or replaces,
    [update] replaces the named top-level fields of an existing document
    and is rejected for an absent one, [delete] is accepted whether the
    document exists or not. *)

Definition Doc : Type := list (string * value).
Abbreviation Store := (gmap (list string) Doc).

Module store.

(** [collection(c).doc(k)]: the key has to be a non-empty string. *)
Definition doc (parent : list string) (c : string) (k : value)
  : completion (list string) :=
  match k with
  | VStr s => if decide (s = "") then Throw (StoreError "invalid-argument")
              else Normal (parent ++ [c; s])
  | _ => Throw (StoreError "invalid-argument")
  end.

(** The snapshot of [ref.get()]: [None] is [exists = false]. *)
Definition get (st : Store) (ref : list string) : option Doc := st !! ref.

Definition set (st : Store) (ref : list string) (d : Doc) : Store := <[ref := d]> st.

Definition merge (d upd : Doc) : Doc :=
  foldl (fun acc kv => obj_set kv.1 kv.2 acc) d upd.

(** [None]: the write is rejected and the store is as before. *)
Definition update (st : Store) (ref : list string) (upd : Doc) : option Store :=
  match st !! ref with
  | Some d => Some (<[ref := merge d upd]> st)
  | None => None
  end.

Definition delete (st : Store) (ref : list string) : Store := base.delete ref st.

End store.

(** How a promise or a write ended. *)
Inductive settled (A : Type) : Type :=
| Resolved (a : A)
| Rejected (e : error).
Arguments Resolved {A} a.
Arguments Rejected {A} e.

Definition not_found : error := StoreError "not-found".

(** [ref.update(upd)] as a step: the store afterwards and how the write
    ended. *)
Definition do_update (st : Store) (ref : list string) (upd : Doc)
  : Store * settled unit :=
  match store.update st ref upd with
  | Some st' => (st', Resolved ())
  | None => (st, Rejected not_found)
  end.

(** ** The classes [ChatRoom] and [Message] *)

Module ChatRoom.
Record t : Type := mk {
  title : value;
  members : value;
  createdAt : value;
  isRemoved : value;
  chatRoomRef : value;
  isOpen : value
}.

Definition set_createdAt (c : t) (v : value) : t :=
  mk (title c) (members c) v (isRemoved c) (chatRoomRef c) (isOpen c).
End ChatRoom.

Module Message.
Record t : Type := mk {
  body : value;
  from : value;
  chatRoom : ChatRoom.t;
  createdAt : value;
  messageRef : value;
  updatedAt : value
}.

Definition set_createdAt (m : t) (v : value) : t :=
  mk (body m) (from m) (chatRoom m) v (messageRef m) (updatedAt m).
End Message.

(** The class body declares two constructors.  Lines 110-117, from the
    fields: *)
Definition ChatRoom_of_fields (fromRef title members createdAt : value) : ChatRoom.t :=
  ChatRoom.mk title members createdAt (VBool false) fromRef (VBool true).

(** Lines 119-126, from a stored document: *)
Definition ChatRoom_of_room (fromRef room : value) : completion ChatRoom.t :=
  title ← get_prop room "title";
  members ← get_prop room "members";
  isRemoved ← get_prop room "isRemoved";
  createdAt ← get_prop room "createdAt";
  isOpen ← get_prop room "isOpen";
  Normal (ChatRoom.mk title members createdAt isRemoved fromRef isOpen).

(** [new ChatRoom(args)].  The language has no overloading, and the
    module calls the class with two, three and five arguments.  Here a
    call with two arguments runs the second constructor, whose parameter
    list it matches; any other call binds its arguments by position to
    the parameters of the first, a missing one being [undefined] and a
    fifth one dropped. *)
Definition new_ChatRoom (args : list value) : completion ChatRoom.t :=
  match args with
  | [fromRef; room] => ChatRoom_of_room fromRef room
  | _ => Normal (ChatRoom_of_fields (default VUndefined (args !! 0))
                                    (default VUndefined (args !! 1))
                                    (default VUndefined (args !! 2))
                                    (default VUndefined (args !! 3)))
  end.

(** ** Room index: [addToMemberConversations] (lines 57-75) *)

(** A [get] that has been issued: the reference and the snapshot its
    callback will receive. *)
Definition pending_get : Type := list string * option Doc.

(** Lines 58-59: resolve the user's index document and issue [get]. *)
Definition addToMemberConversations (st : Store) (memberId : value)
  : completion pending_get :=
  chatRef ← store.doc [] "UsersChat" memberId;
  Normal (chatRef, store.get st chatRef).

(** Lines 59-74, the callback of that [get]: [update] when the snapshot
    exists, [set] otherwise.  A rejected write is rethrown inside [catch]
    and goes nowhere. *)
Definition addToMemberConversations_then (chatKey : string) (st : Store)
  (p : pending_get) : Store :=
  match p.2 with
  | Some _ => (do_update st p.1 [(chatKey, VStr chatKey)]).1
  | None => store.set st p.1 [(chatKey, VStr chatKey)]
  end.

(** ** [createChatRoom] (lines 28-55) *)

Definition set_prop (o : value) (k : string) (v : value) : value :=
  match o with
  | VObj fields => VObj (obj_set k v fields)
  | _ => o
  end.

Definition users_msg : string :=
  "Users must be a string and not empty ,your Object keys must be  {userId, username if any, photo if any} ".

(** Lines 32-41, the body of the first [forEach]; the result is the member
    after the two assignments. *)
Definition check_member (member : value) : completion value :=
  userId ← get_prop member "userId";
  if lodash.isEmpty userId || negb (lodash.isString userId)
  then Throw (ChatRoomError users_msg)
  else
    username ← get_prop member "username";
    if truthy username && negb (lodash.isString username)
    then Throw (ChatRoomError "User names should be strings")
    else
      photo ← get_prop member "photo";
      if truthy photo && negb (lodash.isString photo)
      then Throw (ChatRoomError "Photos should be strings")
      else
        let member1 := set_prop member "username" (js_or username (VStr "")) in
        Normal (set_prop member1 "phtot" (js_or photo (VStr ""))).

Fixpoint forEach_check (members : list value) : completion (list value) :=
  match members with
  | [] => Normal []
  | member :: rest =>
      member' ← check_member member;
      rest' ← forEach_check rest;
      Normal (member' :: rest')
  end.

(** What [createChatRoom] leaves behind when it returns: the callback of
    [set], with the members and the reference it closes over. *)
Record create_pending : Type := {
  cp_title : value;
  cp_members : list value;
  cp_ref : list string
}.

Record create_result : Type := {
  cr_returned : completion value;
  cr_store : Store;
  cr_pending : option create_pending
}.

(** Lines 28-50 and 55: validation, then [set] is issued; the function has
    no [return], so a call that does not throw evaluates to [undefined]. *)
Definition createChatRoom (now : Z) (newId : string) (st : Store)
  (title members : value) : create_result :=
  if lodash.isEmpty title || negb (lodash.isString title)
  then {| cr_returned := Throw (ChatRoomError "title should be not empty and be string");
          cr_store := st; cr_pending := None |}
  else
    match members with
    | VArr items =>
        match forEach_check items with
        | Throw e => {| cr_returned := Throw e; cr_store := st; cr_pending := None |}
        | Normal items' =>
            let chatRoomRef := ["ChatRooms"; newId] in
            {| cr_returned := Normal VUndefined;
               cr_store := store.set st chatRoomRef
                             [("title", title); ("members", VArr items');
                              ("createdAt", VNum now);
                              ("isRemoved", VBool false); ("isOpen", VBool true)];
               cr_pending := Some {| cp_title := title; cp_members := items';
                                     cp_ref := chatRoomRef |} |}
        end
    | _ => {| cr_returned := Throw TypeError; cr_store := st; cr_pending := None |}
    end.

Definition ref_id (ref : list string) : string := default "" (last ref).

(** Line 52, the second [forEach]: one index [get] per member; a throw
    ends the loop, the reads already issued stay pending. *)
Fixpoint forEach_add (st : Store) (members : list value)
  : list pending_get * option error :=
  match members with
  | [] => ([], None)
  | member :: rest =>
      match (userId ← get_prop member "userId"; addToMemberConversations st userId) with
      | Throw e => ([], Some e)
      | Normal p => let r := forEach_add st rest in (p :: r.1, r.2)
      end
  end.

(** Lines 51-54, the callback of [set].  Its value, the [ChatRoom], settles
    a promise that nobody holds. *)
Definition createChatRoom_then (st : Store) (p : create_pending)
  : list pending_get * settled ChatRoom.t :=
  let r := forEach_add st (cp_members p) in
  (r.1,
   match r.2 with
   | Some e => Rejected e
   | None =>
       match new_ChatRoom [cp_title p; VArr (cp_members p); VRef (cp_ref p)] with
       | Normal c => Resolved c
       | Throw e => Rejected e
       end
   end).

(** The whole of a call when nothing else runs in between: the
    synchronous part, the callback of [set], then the callbacks of the
    index reads in the order the reads were issued. *)
Definition createChatRoom_run (now : Z) (newId : string) (st : Store)
  (title members : value) : completion value * Store :=
  let r := createChatRoom now newId st title members in
  match cr_pending r with
  | None => (cr_returned r, cr_store r)
  | Some p =>
      let gets := (createChatRoom_then (cr_store r) p).1 in
      (cr_returned r,
       foldl (addToMemberConversations_then (ref_id (cp_ref p))) (cr_store r) gets)
  end.

(** ** [joinChatRoom] (lines 77-98) *)

Definition field (d : Doc) (k : string) : value := default VUndefined (obj_get k d).

Definition err_not_exist : error := ChatRoomError "Chat Room does'nt exist".
Definition err_removed : error := ChatRoomError "Chat Room was Already removed".
Definition err_private : error := ChatRoomError "Chat Room is Private".

(** Lines 78-79: the room reference is built from [member.id] and [get] is
    issued. *)
Definition joinChatRoom (st : Store) (member : value) : completion pending_get :=
  id ← get_prop member "id";
  chatRoomRef ← store.doc [] "ChatRooms" id;
  Normal (chatRoomRef, store.get st chatRoomRef).

(** Lines 79-92, the callback of [get]: the three guards on the snapshot,
    then the push, and [update] is issued with the two fields.  The result
    is the store after the write and either the local [room] or the error
    the promise is rejected with. *)
Definition joinChatRoom_then (st : Store) (member : value) (p : pending_get)
  : Store * settled Doc :=
  match p.2 with
  | None => (st, Rejected err_not_exist)
  | Some room =>
      if truthy (field room "isRemoved") then (st, Rejected err_removed)
      else if negb (truthy (field room "isOpen")) then (st, Rejected err_private)
      else
        match field room "members" with
        | VArr items =>
            let members' := VArr (items ++ [member]) in
            let room' := obj_set "isOpen" (VBool false) (obj_set "members" members' room) in
            match do_update st p.1 [("members", members'); ("isOpen", VBool false)] with
            | (st', Resolved _) => (st', Resolved room')
            | (st', Rejected e) => (st', Rejected e)
            end
        | _ => (st, Rejected TypeError)
        end
  end.

(** Lines 93-96, the callback of [update]: the index read for
    [member.userId] is issued and the promise resolves with the room. *)
Definition joinChatRoom_updated (st : Store) (member : value)
  (chatRoomRef : list string) (room : Doc) : option pending_get * settled ChatRoom.t :=
  match (userId ← get_prop member "userId"; addToMemberConversations st userId) with
  | Throw e => (None, Rejected e)
  | Normal g =>
      (Some g,
       match new_ChatRoom [VRef chatRoomRef; VObj room] with
       | Normal c => Resolved c
       | Throw e => Rejected e
       end)
  end.

(** A call of [joinChatRoom] in flight, between two of its callbacks. *)
Inductive join_thread : Type :=
| JCalled (member : value)
| JGetIssued (member : value) (p : pending_get)
| JUpdateIssued (member : value) (chatRoomRef : list string) (room : Doc)
| JIndexIssued (r : settled ChatRoom.t) (chatKey : string) (g : pending_get)
| JThrown (e : error)
| JSettled (r : settled ChatRoom.t).

(** One step of a call: the next callback of that call runs. *)
Definition join_step (st : Store) (t : join_thread) : Store * join_thread :=
  match t with
  | JCalled member =>
      match joinChatRoom st member with
      | Throw e => (st, JThrown e)
      | Normal p => (st, JGetIssued member p)
      end
  | JGetIssued member p =>
      match joinChatRoom_then st member p with
      | (st', Resolved room) => (st', JUpdateIssued member p.1 room)
      | (st', Rejected e) => (st', JSettled (Rejected e))
      end
  | JUpdateIssued member chatRoomRef room =>
      match joinChatRoom_updated st member chatRoomRef room with
      | (Some g, r) => (st, JIndexIssued r (ref_id chatRoomRef) g)
      | (None, r) => (st, JSettled r)
      end
  | JIndexIssued r chatKey g =>
      (addToMemberConversations_then chatKey st g, JSettled r)
  | JThrown e => (st, JThrown e)
  | JSettled r => (st, JSettled r)
  end.

(** What the caller of [joinChatRoom] has learnt so far. *)
Definition join_outcome (t : join_thread) : option (settled ChatRoom.t) :=
  match t with
  | JIndexIssued r _ _ | JSettled r => Some r
  | JThrown e => Some (Rejected e)
  | JCalled _ | JGetIssued _ _ | JUpdateIssued _ _ _ => None
  end.

Definition join_succeeded (t : join_thread) : bool :=
  match join_outcome t with Some (Resolved _) => true | _ => false end.

Definition join_failed_with (e : error) (t : join_thread) : Prop :=
  join_outcome t = Some (Rejected e).

(** A call run to its end with nothing in between. *)
Definition joinChatRoom_run (st : Store) (member : value) : Store * join_thread :=
  let s1 := join_step st (JCalled member) in
  let s2 := join_step s1.1 s1.2 in
  let s3 := join_step s2.1 s2.2 in
  join_step s3.1 s3.2.

(** Two calls in flight, and a schedule saying whose callback runs next. *)
Inductive caller : Type := CallA | CallB.

Record race : Type := {
  r_store : Store;
  r_a : join_thread;
  r_b : join_thread
}.

Definition race_step (c : caller) (r : race) : race :=
  match c with
  | CallA => let s := join_step (r_store r) (r_a r) in
             {| r_store := s.1; r_a := s.2; r_b := r_b r |}
  | CallB => let s := join_step (r_store r) (r_b r) in
             {| r_store := s.1; r_a := r_a r; r_b := s.2 |}
  end.

Definition race_run (schedule : list caller) (r : race) : race :=
  foldl (fun r c => race_step c r) r schedule.

Definition two_joins (st : Store) (memberA memberB : value) : race :=
  {| r_store := st; r_a := JCalled memberA; r_b := JCalled memberB |}.

(** The members of the room stored under [ref], when it has any. *)
Definition room_members (st : Store) (ref : list string) : option (list value) :=
  match st !! ref with
  | Some room => match field room "members" with VArr items => Some items | _ => None end
  | None => None
  end.

(** ** [Message] (lines 328-409) *)

Definition err_body : error := MessageError "Message should have body and be string".
Definition err_from_empty : error := MessageError "From should be not empty".
Definition err_from_member : error := MessageError " 'from' user must be in this chat room".

(** [chatRoom.members[i].userId !== x] *)
Definition member_differs (chatRoom : ChatRoom.t) (i : nat) (x : value) : completion bool :=
  m ← get_index (ChatRoom.members chatRoom) i;
  userId ← get_prop m "userId";
  Normal (negb (strict_eq userId x)).

(** [(guard && members[0].userId !== x) && (guard && members[1].userId !== x)],
    with the short circuits of [&&]. *)
Definition in_neither (guard : bool) (chatRoom : ChatRoom.t) (x : completion value)
  : completion bool :=
  if guard then
    x0 ← x;
    d0 ← member_differs chatRoom 0 x0;
    if (d0 : bool) then member_differs chatRoom 1 x0 else Normal false
  else Normal false.

(** [ref.collection(c)] on a value: only a reference has the method. *)
Definition collection_of (ref : value) (c : string) : completion (list string) :=
  match ref with
  | VRef path => Normal (path ++ [c])
  | _ => Throw TypeError
  end.

(** The constructor, lines 338-378.  [fromRef] is [undefined] when a
    message is sent and the reference of the stored entry when a message
    is rebuilt from the feed.  The second component is the store when the
    constructor is left, by [return] or by [throw]. *)
Definition new_Message (now : Z) (newId : string) (st : Store)
  (body from : value) (chatRoom : ChatRoom.t) (fromRef : value)
  : completion Message.t * Store :=
  if lodash.isEmpty body || negb (lodash.isString body) then (Throw err_body, st)
  else if lodash.isEmpty from then (Throw err_from_empty, st)
  else
    match in_neither (lodash.isString from) chatRoom (Normal from) with
    | Throw e => (Throw e, st)
    | Normal true => (Throw err_from_member, st)
    | Normal false =>
        match in_neither (lodash.isObject from) chatRoom (get_prop from "userId") with
        | Throw e => (Throw e, st)
        | Normal true => (Throw err_from_member, st)
        | Normal false =>
            match (if lodash.isString from then Normal from else get_prop from "userId") with
            | Throw e => (Throw e, st)
            | Normal this_from =>
                let createdAt := VNum now in
                if lodash.isEmpty fromRef then
                  match collection_of (ChatRoom.chatRoomRef chatRoom) "messages" with
                  | Throw e => (Throw e, st)
                  | Normal messages =>
                      let messageRef := messages ++ [newId] in
                      (Normal (Message.mk body this_from chatRoom createdAt
                                 (VRef messageRef) VUndefined),
                       store.set st messageRef
                         [("body", body); ("from", this_from); ("createdAt", createdAt)])
                  end
                else
                  (Normal (Message.mk body this_from chatRoom createdAt fromRef VUndefined),
                   st)
            end
        end
    end.

(** [updateBody], lines 386-397.  The argument of [then] is the call
    [callback(newBody)], made at once, after [update] has been issued:
    with no callback passed it is a [TypeError].  What a callback does is
    outside the model. *)
Definition updateBody (now : Z) (st : Store) (this : Message.t) (newBody : value)
  (callback : bool) : completion Message.t * Store :=
  if lodash.isEmpty newBody || negb (lodash.isString newBody) then (Throw err_body, st)
  else
    match Message.messageRef this with
    | VRef ref =>
        let st' := (do_update st ref [("body", newBody); ("updatedAt", VNum now)]).1 in
        if callback then
          (Normal (Message.mk (Message.body this) (Message.from this)
                     (Message.chatRoom this) (Message.createdAt this)
                     (Message.messageRef this) (VNum now)),
           st')
        else (Throw TypeError, st')
    | _ => (Throw TypeError, st)
    end.

(** ** The methods of [ChatRoom] *)

(** [sendMessage], lines 193-195. *)
Definition sendMessage (now : Z) (newId : string) (st : Store)
  (this : ChatRoom.t) (body from : value) : completion Message.t * Store :=
  new_Message now newId st body from this VUndefined.

(** [setNewTitle], lines 133-142; [onComplete(title)] is called at once,
    as in [updateBody]. *)
Definition setNewTitle (st : Store) (this : ChatRoom.t) (title : value)
  (onComplete : bool) : completion unit * Store :=
  if negb (lodash.isString title) || lodash.isEmpty title
  then (Throw (ChatRoomError "title should be not empty and string"), st)
  else
    match ChatRoom.chatRoomRef this with
    | VRef ref =>
        let st' := (do_update st ref [("title", title)]).1 in
        if onComplete then (Normal (), st') else (Throw TypeError, st')
    | _ => (Throw TypeError, st)
    end.

(** What a call of [remove] gives: the value returned, the store, and how
    the write it issued ended. *)
Record remove_result : Type := {
  rm_returned : completion ChatRoom.t;
  rm_store : Store;
  rm_write : option (settled unit)
}.

(** [remove], lines 149-159: [update] of the one field [isRemoved] when
    [softRemove] is truthy, otherwise the document is deleted. *)
Definition remove (st : Store) (this : ChatRoom.t) (softRemove : value) : remove_result :=
  match ChatRoom.chatRoomRef this with
  | VRef ref =>
      if truthy softRemove then
        let w := do_update st ref [("isRemoved", VBool true)] in
        {| rm_returned := Normal this; rm_store := w.1; rm_write := Some w.2 |}
      else
        {| rm_returned := Normal this; rm_store := store.delete st ref;
           rm_write := Some (Resolved ()) |}
  | _ => {| rm_returned := Throw TypeError; rm_store := st; rm_write := None |}
  end.

(** The [forEach] of [removeMutualChatRooms], lines 172-182, over the keys
    of user B's record: a key that user A's record has too gets the
    [update] or the delete; the writes are not awaited, and a rejected one
    leaves the loop running. *)
Fixpoint removeMutual_forEach (userAChats : list string) (softRemove : value)
  (ids : list string) (st : Store) : settled unit * Store :=
  match ids with
  | [] => (Resolved (), st)
  | id :: rest =>
      match store.doc [] "ChatRooms" (VStr id) with
      | Throw e => (Rejected e, st)
      | Normal chatRoomRef =>
          let st' :=
            if includes userAChats id then
              if truthy softRemove
              then (do_update st chatRoomRef [("isRemoved", VBool true)]).1
              else store.delete st chatRoomRef
            else st in
          removeMutual_forEach userAChats softRemove rest st'
      end
  end.

(** [Object.keys(snapshot.data())]: [data()] of an absent document is
    [undefined]. *)
Definition snapshot_keys (snap : option Doc) : completion (list string) :=
  match snap with
  | Some d => Normal (keys d)
  | None => Throw TypeError
  end.

(** [removeMutualChatRooms], lines 167-183; the result is how the promise
    of the [async] function ends. *)
Definition removeMutualChatRooms (st : Store) (userA userB softRemove : value)
  : settled unit * Store :=
  match
    (refA ← store.doc [] "UsersChat" userA;
     refB ← store.doc [] "UsersChat" userB;
     userAChats ← snapshot_keys (store.get st refA);
     userBChats ← snapshot_keys (store.get st refB);
     Normal (userAChats, userBChats))
  with
  | Throw e => (Rejected e, st)
  | Normal (userAChats, userBChats) =>
      removeMutual_forEach userAChats softRemove userBChats st
  end.

(** ** [getUserChatRooms] (lines 202-248) *)

(** A call of the [onComplete] callback, with its two arguments. *)
Inductive callback_call : Type :=
| OnComplete (err : value) (chats : option (list ChatRoom.t)).

(** Lines 204-213: the user's index document is resolved and read. *)
Definition getUserChatRooms (st : Store) (user : value) : completion pending_get :=
  if lodash.isEmpty user then Throw (ChatRoomError "userId should be string")
  else
    user' ← (if lodash.isObject user then get_prop user "userId" else Normal user);
    userChatRoomsRef ← store.doc [] "UsersChat" user';
    Normal (userChatRoomsRef, store.get st userChatRoomsRef).

(** Lines 220-222: one room read per id. *)
Fixpoint forEach_get (st : Store) (ids : list string) : list pending_get :=
  match ids with
  | [] => []
  | id :: rest =>
      match store.doc [] "ChatRooms" (VStr id) with
      | Throw _ => []
      | Normal chatRoomRef => (chatRoomRef, store.get st chatRoomRef) :: forEach_get st rest
      end
  end.

(** Lines 227-236: the projection of a stored member. *)
Definition member_view (members : value) (i : nat) : completion value :=
  m ← get_index members i;
  userId ← get_prop m "userId";
  username ← get_prop m "username";
  photo ← get_prop m "photo";
  Normal (VObj [("userId", userId); ("username", username); ("photo", photo)]).

(** Lines 226-238: the [ChatRoom] built from a snapshot. *)
Definition chat_of_snapshot (chatRoomRef : list string) (snap : Doc) : completion ChatRoom.t :=
  userAFire ← member_view (field snap "members") 0;
  userBFire ← member_view (field snap "members") 1;
  newChat ← new_ChatRoom [field snap "title"; userAFire; userBFire; VUndefined;
                          VRef chatRoomRef];
  Normal (ChatRoom.set_createdAt newChat (field snap "createdAt")).

(** The array [list] the room callbacks share, and the calls of
    [onComplete] made so far. *)
Record fan_in : Type := {
  fi_list : list ChatRoom.t;
  fi_calls : list callback_call
}.

(** Lines 222-244, the callback of one room read; [n_ids] is
    [ids.length].  An absent document returns at once; a throw while the
    members are projected ends this callback only. *)
Definition room_fetched (n_ids : nat) (acc : fan_in) (p : pending_get) : fan_in :=
  match p.2 with
  | None => acc
  | Some snap =>
      match chat_of_snapshot p.1 snap with
      | Throw _ => acc
      | Normal newChat =>
          let list' := fi_list acc ++ [newChat] in
          {| fi_list := list';
             fi_calls := if decide (length list' = n_ids)
                         then fi_calls acc ++ [OnComplete VUndefined (Some list')]
                         else fi_calls acc |}
      end
  end.

(** Lines 213-247, the callback of the index read, followed by the
    callbacks of the room reads in the order given by [order] (the order
    in which the reads come back). *)
Definition getUserChatRooms_then (st : Store) (p : pending_get)
  (order : list pending_get → list pending_get) : list callback_call :=
  match p.2 with
  | None => [OnComplete (VStr "User has no chat rooms") None]
  | Some data =>
      let ids := keys data in
      fi_calls (foldl (room_fetched (length ids))
                      {| fi_list := []; fi_calls := [] |}
                      (order (forEach_get st ids)))
  end.

(** A whole call, the room reads coming back in issue order. *)
Definition getUserChatRooms_run (st : Store) (user : value) : completion (list callback_call) :=
  p ← getUserChatRooms st user;
  Normal (getUserChatRooms_then st p id).

(** ** [getMessagesAndListen] (lines 278-291) *)

Inductive change_type : Type := added | modified | removed.

#[global] Instance change_type_eq_dec : EqDecision change_type.
Proof. solve_decision. Defined.

(** One element of [snapshot.docChanges()]. *)
Record change : Type := {
  ch_type : change_type;
  ch_id : string;
  ch_data : Doc
}.

(** Lines 282-286: the [Message] rebuilt from an added entry. *)
Definition message_of_change (now : Z) (st : Store) (this : ChatRoom.t) (c : change)
  : completion Message.t :=
  messageRef ← match ChatRoom.chatRoomRef this with
               | VRef path => store.doc path "messages" (VStr (ch_id c))
               | _ => Throw TypeError
               end;
  newMessage ← (new_Message now "" st (field (ch_data c) "body") (field (ch_data c) "from")
                            this (VRef messageRef)).1;
  Normal (Message.set_createdAt newMessage (field (ch_data c) "createdAt")).

(** Lines 279-290, the snapshot callback on one batch: the arguments
    [action] is called with, in order, and the error that left the
    [forEach], if one did. *)
Fixpoint on_snapshot (now : Z) (st : Store) (this : ChatRoom.t) (changes : list change)
  : list Message.t * option error :=
  match changes with
  | [] => ([], None)
  | c :: rest =>
      match ch_type c with
      | added =>
          match message_of_change now st this c with
          | Throw e => ([], Some e)
          | Normal newMessage =>
              let r := on_snapshot now st this rest in (newMessage :: r.1, r.2)
          end
      | modified | removed => on_snapshot now st this rest
      end
  end.

(** The listeners registered on the feed: the collection listened to and
    the room whose callback listens. *)
Definition listeners : Type := list (list string * ChatRoom.t).

(** The method itself: the callback is registered with [onSnapshot]; what
    [onSnapshot] returns is dropped and the method returns [undefined]. *)
Definition getMessagesAndListen (this : ChatRoom.t) (ls : listeners)
  : completion value * listeners :=
  match collection_of (ChatRoom.chatRoomRef this) "messages" with
  | Throw e => (Throw e, ls)
  | Normal messages => (Normal VUndefined, ls ++ [(messages, this)])
  end.

(** A batch of changes of the collection [coll] reaches every listener
    registered on it. *)
Definition feed_batch (now : Z) (st : Store) (ls : listeners) (coll : list string)
  (changes : list change) : list (list Message.t * option error) :=
  (fun l => on_snapshot now st l.2 changes) <$> filter (fun l => l.1 = coll) ls.

(** ** Documents after a write *)

(** The document after a soft remove. *)
Definition soft_removed (room : Doc) : Doc := store.merge room [("isRemoved", VBool true)].

(** The document written by a successful join. *)
Definition joined (room : Doc) (items : list value) (member : value) : Doc :=
  store.merge room [("members", VArr (items ++ [member])); ("isOpen", VBool false)].

(** ** Two joins in flight: what holds between any two steps *)

Section race_invariant.
Variables (key : string) (room : Doc) (items : list value).
Variables (memberA memberB : value) (uA uB : string).

(** A document that would be refused by the open-check. *)
Definition closed_doc (d : Doc) : Prop :=
  truthy (field d "isRemoved") = false ∧ truthy (field d "isOpen") = false.

(** The room as the update of [member]'s call leaves it. *)
Definition written_by (member : value) (d : Doc) : Prop :=
  closed_doc d ∧ field d "members" = VArr (items ++ [member]).

(** The call has issued its update. *)
Definition has_written (t : join_thread) : Prop :=
  match t with
  | JUpdateIssued _ _ _ | JIndexIssued (Resolved _) _ _ | JSettled (Resolved _) => True
  | _ => False
  end.

(** The call has read, or acted on, a room that is no longer open. *)
Definition saw_closed (t : join_thread) : Prop :=
  match t with
  | JGetIssued _ (_, Some d) => closed_doc d
  | JSettled (Rejected _) => True
  | _ => False
  end.

Inductive thread_inv (member : value) (u : string) : join_thread → Prop :=
| TI_called : thread_inv member u (JCalled member)
| TI_get d :
    d = room ∨ closed_doc d →
    thread_inv member u (JGetIssued member (["ChatRooms"; key], Some d))
| TI_update room' : thread_inv member u (JUpdateIssued member ["ChatRooms"; key] room')
| TI_index c chatKey g :
    g.1 = ["UsersChat"; u] → thread_inv member u (JIndexIssued (Resolved c) chatKey g)
| TI_resolved c : thread_inv member u (JSettled (Resolved c))
| TI_private : thread_inv member u (JSettled (Rejected err_private)).

(** The room document, given what the two calls have done. *)
Definition room_state (member other_member : value) (t other : join_thread) (d : Doc)
  : Prop :=
  (d = room ∧ ¬ has_written t ∧ ¬ has_written other) ∨
  (written_by member d ∧ has_written t) ∨
  (written_by other_member d ∧ has_written other).

Definition race_inv (r : race) : Prop :=
  thread_inv memberA uA (r_a r) ∧ thread_inv memberB uB (r_b r) ∧
  (saw_closed (r_a r) → has_written (r_b r)) ∧
  (saw_closed (r_b r) → has_written (r_a r)) ∧
  ∃ d, r_store r !! ["ChatRooms"; key] = Some d ∧
       room_state memberA memberB (r_a r) (r_b r) d.

End race_invariant.

(** The two schedules the statements name: call A to its end and then call
    B, and the two calls in lockstep. *)
Definition one_after_the_other : list caller :=
  [CallA; CallA; CallA; CallA; CallB; CallB; CallB; CallB].

Definition lockstep : list caller :=
  [CallA; CallB; CallA; CallB; CallA; CallB; CallA; CallB].

(** ** Notions used to state the properties *)

(** The user id a [from] argument stands for: the string itself, or the
    [userId] field of an object that has one. *)
Definition from_userId (from : value) : option value :=
  match from with
  | VStr s => Some (VStr s)
  | VObj fields => obj_get "userId" fields
  | _ => None
  end.

(** Not a non-empty string: the test the module applies to titles, user
    ids and message bodies. *)
Definition not_a_name (v : value) : bool :=
  lodash.isEmpty v || negb (lodash.isString v).

(** A member without a non-empty string [userId]. *)
Definition lacks_userId (member : value) : bool :=
  match get_prop member "userId" with
  | Normal userId => not_a_name userId
  | Throw _ => true
  end.

(** The added entries of a batch. *)
Definition added_entries (changes : list change) : list change :=
  filter (fun c => ch_type c = added) changes.

(** An entry that is not added, or from which the message can be
    rebuilt. *)
Definition rebuilds (now : Z) (st : Store) (this : ChatRoom.t) (c : change) : Prop :=
  ch_type c = added → is_throw (message_of_change now st this c) = false.

(** The index document [idx] lists the room [chatKey]. *)
Definition listed (chatKey : string) (st : Store) (idx : list string) : Prop :=
  ∃ d, st !! idx = Some d ∧ field d chatKey = VStr chatKey.

(** ** Sample data *)

Module sample.

Definition member (userId : string) : value := VObj [("userId", VStr userId)].

Definition stored_member (userId : string) : value :=
  VObj [("userId", VStr userId); ("username", VStr ""); ("phtot", VStr "")].

Definition joiner (roomId userId : string) : value :=
  VObj [("id", VStr roomId); ("userId", VStr userId)].

Definition room (members : list value) (isRemoved isOpen : bool) : Doc :=
  [("title", VStr "Trip"); ("members", VArr members); ("createdAt", VNum 7);
   ("isRemoved", VBool isRemoved); ("isOpen", VBool isOpen)].

Definition r1 : list string := ["ChatRooms"; "r1"].

(** A store holding one room with a single member, still open. *)
Definition st_open : Store := {[ r1 := room [stored_member "u1"] false true ]}.

(** The same room after a join. *)
Definition st_closed : Store :=
  {[ r1 := room [stored_member "u1"; joiner "r1" "u2"] false false ]}.

(** The same room, soft-removed while still open. *)
Definition st_removed : Store := {[ r1 := room [stored_member "u1"] true true ]}.

(** The room object of a two-member room. *)
Definition chat : ChatRoom.t :=
  ChatRoom.mk (VStr "Trip") (VArr [stored_member "u1"; stored_member "u2"]) (VNum 7)
              (VBool false) (VRef r1) (VBool false).

(** One room with two members; the index record of [u1] lists it and a
    room that is gone. *)
Definition st_dangling : Store :=
  {[ r1 := room [stored_member "u1"; stored_member "u2"] false false;
     ["UsersChat"; "u1"] := [("r1", VStr "r1"); ("gone", VStr "gone")] ]}.

(** The same, the index record listing the one room only. *)
Definition st_listed : Store :=
  {[ r1 := room [stored_member "u1"; stored_member "u2"] false false;
     ["UsersChat"; "u1"] := [("r1", VStr "r1")] ]}.

(** Four rooms; A is in r1, r2, r3 and B in r2, r3, r4. *)
Definition st_mutual : Store :=
  {[ ["ChatRooms"; "r1"] := room [stored_member "a"; stored_member "c"] false false;
     ["ChatRooms"; "r2"] := room [stored_member "a"; stored_member "b"] false false;
     ["ChatRooms"; "r3"] := room [stored_member "b"; stored_member "a"] false false;
     ["ChatRooms"; "r4"] := room [stored_member "b"; stored_member "c"] false false;
     ["UsersChat"; "a"] := [("r1", VStr "r1"); ("r2", VStr "r2"); ("r3", VStr "r3")];
     ["UsersChat"; "b"] := [("r2", VStr "r2"); ("r3", VStr "r3"); ("r4", VStr "r4")] ]}.

Definition entry (id body from : string) : change :=
  {| ch_type := added; ch_id := id;
     ch_data := [("body", VStr body); ("from", VStr from); ("createdAt", VNum 8)] |}.

(** A batch of two added entries, the first from a user who is not in
    the room. *)
Definition batch : list change := [entry "m1" "hi" "u3"; entry "m2" "yo" "u1"].

(** A batch with an added, a modified, a removed and an added entry, all
    from members. *)
Definition mixed_batch : list change :=
  [entry "m1" "hi" "u1";
   {| ch_type := modified; ch_id := "m1";
      ch_data := [("body", VStr "hi!"); ("from", VStr "u1"); ("createdAt", VNum 8)] |};
   {| ch_type := removed; ch_id := "m0"; ch_data := [] |};
   entry "m2" "yo" "u2"].

End sample.


(** ** The remaining functions of the module *)

(** [initializeFirebase], lines 16-26: the value is the configuration
    handed to [initializeApp]. *)
Definition initializeFirebase (configures : value) : completion value :=
  if negb (lodash.isObjectLike configures)
  then Throw (InitializeAppError "The configures must be an object")
  else if lodash.isEmpty configures
  then Throw (InitializeAppError "The configures shouldn't be empty")
  else Normal configures.

(** A call of the [onSuccess] callback of [findById]. *)
Inductive found_call : Type :=
| OnSuccess (err : value) (chatroom : option ChatRoom.t).

(** [findById], lines 299-300: the room document is resolved and read. *)
Definition findById (st : Store) (uid : value) : completion pending_get :=
  chat ← store.doc [] "ChatRooms" uid;
  Normal (chat, store.get st chat).

(** Lines 309-319: the [ChatRoom] built from the snapshot; unlike in
    [getUserChatRooms], [createdAt] is not assigned afterwards. *)
Definition chat_of_found (chat : list string) (snap : Doc) : completion ChatRoom.t :=
  userAFire ← member_view (field snap "members") 0;
  userBFire ← member_view (field snap "members") 1;
  new_ChatRoom [field snap "title"; userAFire; userBFire; VUndefined; VRef chat].

(** Lines 300-322, the callback of the read: the calls of [onSuccess].  The
    data of an existing document is never [null]; a throw while the
    members are projected leaves the callback without a call. *)
Definition findById_then (p : pending_get) : list found_call :=
  match p.2 with
  | None => [OnSuccess (VStr "doc does not exist") None]
  | Some snap =>
      match chat_of_found p.1 snap with
      | Throw _ => []
      | Normal newChat => [OnSuccess VUndefined (Some newChat)]
      end
  end.

Definition findById_run (st : Store) (uid : value) : completion (list found_call) :=
  p ← findById st uid;
  Normal (findById_then p).

(** [Message.remove], lines 404-407. *)
Definition Message_remove (st : Store) (this : Message.t) : completion Message.t * Store :=
  match Message.messageRef this with
  | VRef ref => (Normal this, store.delete st ref)
  | _ => (Throw TypeError, st)
  end.

(** A call of [addToMemberConversations] run to its end with nothing in
    between: the read, then its callback. *)
Definition addToMemberConversations_run (st : Store) (memberId : value) (chatKey : string)
  : Store :=
  match addToMemberConversations st memberId with
  | Normal g => addToMemberConversations_then chatKey st g
  | Throw _ => st
  end.

(** Two calls of [addToMemberConversations] for the same user, both reads
    issued before either callback runs. *)
Definition addToMemberConversations_both (st : Store) (memberId : value)
  (chatKey1 chatKey2 : string) : Store :=
  match addToMemberConversations st memberId, addToMemberConversations st memberId with
  | Normal g1, Normal g2 =>
      addToMemberConversations_then chatKey2
        (addToMemberConversations_then chatKey1 st g1) g2
  | _, _ => st
  end.

(** ** Notions used to state further properties *)

(** A stored room never goes back: [isRemoved] stays set and [isOpen]
    stays unset from [d] to [d']. *)
Definition flags_kept (d d' : Doc) : Prop :=
  (truthy (field d "isRemoved") = true → truthy (field d' "isRemoved") = true) ∧
  (truthy (field d "isOpen") = false → truthy (field d' "isOpen") = false).

(** Every room document of [st'] was a room document of [st], and has
    kept its flags. *)
Definition rooms_kept (st st' : Store) : Prop :=
  ∀ key d', st' !! ["ChatRooms"; key] = Some d' →
            ∃ d, st !! ["ChatRooms"; key] = Some d ∧ flags_kept d d'.

(** The change the feed reports for a stored entry. *)
Definition added_change (id : string) (data : Doc) : change :=
  {| ch_type := added; ch_id := id; ch_data := data |}.

(** A read whose snapshot is a room from which the [ChatRoom] can be
    built. *)
Definition builds (g : pending_get) : bool :=
  match g.2 with
  | Some snap => negb (is_throw (chat_of_snapshot g.1 snap))
  | None => false
  end.

(** [n] calls of [getMessagesAndListen] on the same room object, starting
    with no listener. *)
Definition listen_times (n : nat) (this : ChatRoom.t) : listeners :=
  Nat.iter n (fun ls => (getMessagesAndListen this ls).2) [].

(** ** More sample data *)

Module sample_messages.

Definition m1 : list string := sample.r1 ++ ["messages"; "m1"].

Definition entry : Doc :=
  [("body", VStr "hi"); ("from", VStr "u1"); ("createdAt", VNum 8)].

(** The closed room with one stored entry. *)
Definition st : Store := <[m1 := entry]> sample.st_closed.

Definition message : Message.t :=
  Message.mk (VStr "hi") (VStr "u1") sample.chat (VNum 8) (VRef m1) VUndefined.

(** The room object of a room with a single member. *)
Definition single : ChatRoom.t :=
  ChatRoom.mk (VStr "Trip") (VArr [sample.stored_member "u1"]) (VNum 7)
              (VBool false) (VRef sample.r1) (VBool true).

End sample_messages.

(** * Properties *)

(** ** Field lists and the store *)

Lemma obj_get_set_eq k v (d : Doc) : obj_get k (obj_set k v d) = Some v.
Proof.
  induction d as [|[k' v'] d IH]; simpl.
  - by rewrite decide_True.
  - destruct (decide (k = k')) as [->|Hne]; simpl.
    + by rewrite decide_True.
    + by rewrite decide_False.
Qed.

Lemma obj_get_set_ne k k' v (d : Doc) :
  k ≠ k' → obj_get k' (obj_set k v d) = obj_get k' d.
Proof.
  intros Hne. induction d as [|[k0 v0] d IH]; simpl.
  - rewrite decide_False; [done | congruence].
  - destruct (decide (k = k0)) as [->|Hne0]; simpl.
    + rewrite !decide_False; [done | congruence | congruence].
    + by rewrite IH.
Qed.

Lemma obj_set_idem k v (d : Doc) : obj_set k v (obj_set k v d) = obj_set k v d.
Proof.
  induction d as [|[k' v'] d IH]; simpl.
  - by rewrite decide_True.
  - destruct (decide (k = k')) as [->|Hne]; simpl.
    + by rewrite decide_True.
    + rewrite decide_False; [by rewrite IH | done].
Qed.

Lemma field_set_eq k v (d : Doc) : field (obj_set k v d) k = v.
Proof. unfold field. by rewrite obj_get_set_eq. Qed.

Lemma field_set_ne k k' v (d : Doc) : k ≠ k' → field (obj_set k v d) k' = field d k'.
Proof. intros. unfold field. by rewrite obj_get_set_ne. Qed.

Lemma soft_removed_idem room : soft_removed (soft_removed room) = soft_removed room.
Proof. unfold soft_removed, store.merge. simpl. apply obj_set_idem. Qed.

Lemma do_update_present (st : Store) ref upd d :
  st !! ref = Some d → do_update st ref upd = (<[ref := store.merge d upd]> st, Resolved ()).
Proof. intros H. unfold do_update, store.update. by rewrite H. Qed.

Lemma do_update_absent (st : Store) ref upd :
  st !! ref = None → do_update st ref upd = (st, Rejected not_found).
Proof. intros H. unfold do_update, store.update. by rewrite H. Qed.

Lemma do_update_lookup (st : Store) ref upd ref' :
  (do_update st ref upd).1 !! ref' =
  if decide (ref = ref') then (fun d => store.merge d upd) <$> st !! ref' else st !! ref'.
Proof.
  destruct (st !! ref) as [d|] eqn:E.
  - rewrite (do_update_present _ _ _ _ E). simpl. rewrite lookup_insert.
    destruct (decide (ref = ref')) as [<-|]; [by rewrite E | done].
  - rewrite (do_update_absent _ _ _ E). simpl.
    destruct (decide (ref = ref')) as [<-|]; [by rewrite E | done].
Qed.

(** ** Soft and hard remove *)



(** ** Joining a room *)

Lemma joinChatRoom_key (st : Store) member key :
  get_prop member "id" = Normal (VStr key) → key ≠ "" →
  joinChatRoom st member = Normal (["ChatRooms"; key], st !! ["ChatRooms"; key]).
Proof.
  intros Hid Hkey. unfold joinChatRoom. rewrite Hid. simpl.
  by rewrite decide_False.
Qed.

Lemma addToMemberConversations_user (st : Store) u :
  u ≠ "" →
  addToMemberConversations st (VStr u) = Normal (["UsersChat"; u], st !! ["UsersChat"; u]).
Proof. intros Hu. unfold addToMemberConversations. simpl. by rewrite decide_False. Qed.

Lemma addToMemberConversations_ref (st : Store) memberId g :
  addToMemberConversations st memberId = Normal g →
  ∃ u, memberId = VStr u ∧ u ≠ "" ∧ g = (["UsersChat"; u], st !! ["UsersChat"; u]).
Proof.
  unfold addToMemberConversations. destruct memberId; simpl; try discriminate.
  destruct (decide (s = "")); simpl; [discriminate |].
  intros [= <-]. eauto.
Qed.

(** The callback of the index read writes the user's index document and
    nothing else. *)
Lemma addToMemberConversations_then_other (chatKey : string) (st : Store)
  (g : pending_get) (ref : list string) :
  ref ≠ g.1 → addToMemberConversations_then chatKey st g !! ref = st !! ref.
Proof.
  intros Hne. unfold addToMemberConversations_then.
  destruct g.2.
  - rewrite do_update_lookup. by rewrite decide_False.
  - unfold store.set. by rewrite lookup_insert_ne.
Qed.

(** When the snapshot is what the store holds, the index document lists
    the room afterwards. *)
Lemma addToMemberConversations_then_listed (chatKey : string) (st : Store)
  (ref : list string) :
  ∃ d, addToMemberConversations_then chatKey st (ref, st !! ref) !! ref = Some d ∧
       field d chatKey = VStr chatKey.
Proof.
  unfold addToMemberConversations_then. simpl.
  destruct (st !! ref) as [d|] eqn:E.
  - rewrite (do_update_present _ _ _ _ E). simpl. rewrite lookup_insert_eq.
    eexists. split; [done |]. unfold store.merge. simpl. apply field_set_eq.
  - unfold store.set. rewrite lookup_insert_eq. eexists. split; [done |].
    unfold field. simpl. by rewrite decide_True.
Qed.

Lemma joined_fields room items member :
  field (joined room items member) "members" = VArr (items ++ [member]) ∧
  field (joined room items member) "isOpen" = VBool false ∧
  ∀ k, k ≠ "members" → k ≠ "isOpen" → obj_get k (joined room items member) = obj_get k room.
Proof.
  unfold joined, store.merge. simpl. repeat split.
  - rewrite field_set_ne; [apply field_set_eq | done].
  - apply field_set_eq.
  - intros k H1 H2. rewrite !obj_get_set_ne; done.
Qed.

(** The callback of the room read, by cases on the snapshot. *)
Lemma joinChatRoom_then_absent (st : Store) member ref :
  joinChatRoom_then st member (ref, None) = (st, Rejected err_not_exist).
Proof. done. Qed.

Lemma joinChatRoom_then_removed (st : Store) member ref room :
  truthy (field room "isRemoved") = true →
  joinChatRoom_then st member (ref, Some room) = (st, Rejected err_removed).
Proof. intros H. unfold joinChatRoom_then. simpl. by rewrite H. Qed.

Lemma joinChatRoom_then_private (st : Store) member ref room :
  truthy (field room "isRemoved") = false → truthy (field room "isOpen") = false →
  joinChatRoom_then st member (ref, Some room) = (st, Rejected err_private).
Proof. intros H1 H2. unfold joinChatRoom_then. simpl. by rewrite H1, H2. Qed.

(** An open snapshot: the write goes to whatever the store holds now. *)
Lemma joinChatRoom_then_open (st : Store) member ref room items current :
  truthy (field room "isRemoved") = false → truthy (field room "isOpen") = true →
  field room "members" = VArr items → st !! ref = Some current →
  joinChatRoom_then st member (ref, Some room) =
  (<[ref := joined current items member]> st,
   Resolved (obj_set "isOpen" (VBool false)
               (obj_set "members" (VArr (items ++ [member])) room))).
Proof.
  intros H1 H2 H3 H4. unfold joinChatRoom_then. simpl. rewrite H1, H2, H3. simpl.
  by rewrite (do_update_present _ _ _ _ H4).
Qed.

Lemma joinChatRoom_updated_ok (st : Store) member ref room u :
  get_prop member "userId" = Normal (VStr u) → u ≠ "" →
  ∃ c, joinChatRoom_updated st member ref room =
       (Some (["UsersChat"; u], st !! ["UsersChat"; u]), Resolved c).
Proof.
  intros Hu Hne. unfold joinChatRoom_updated. rewrite Hu. simpl.
  rewrite (addToMemberConversations_user _ _ Hne). eauto.
Qed.

(** A whole call, in terms of its callbacks. *)
Lemma joinChatRoom_run_eq (st : Store) member key :
  get_prop member "id" = Normal (VStr key) → key ≠ "" →
  joinChatRoom_run st member =
  let ref := ["ChatRooms"; key] in
  match joinChatRoom_then st member (ref, st !! ref) with
  | (st', Resolved room') =>
      match joinChatRoom_updated st' member ref room' with
      | (Some g, r) => (addToMemberConversations_then key st' g, JSettled r)
      | (None, r) => (st', JSettled r)
      end
  | (st', Rejected e) => (st', JSettled (Rejected e))
  end.
Proof.
  intros Hid Hkey. unfold joinChatRoom_run. simpl.
  rewrite (joinChatRoom_key _ _ _ Hid Hkey). simpl.
  destruct (joinChatRoom_then _ _ _) as [st' [room'|e]]; simpl; [| done].
  destruct (joinChatRoom_updated _ _ _ _) as [[g|] r]; done.
Qed.

(** Only the room under [member.id] and index documents are written. *)
Lemma joinChatRoom_then_other (st : Store) (member : value) (p : pending_get)
  (ref : list string) :
  ref ≠ p.1 → (joinChatRoom_then st member p).1 !! ref = st !! ref.
Proof.
  intros Hne. unfold joinChatRoom_then.
  destruct p.2 as [room|]; [| done].
  destruct (truthy (field room "isRemoved")); [done |].
  destruct (truthy (field room "isOpen")); simpl; [| done].
  destruct (field room "members"); try done.
  pose proof (do_update_lookup st p.1
    [("members", VArr (items ++ [member])); ("isOpen", VBool false)] ref) as Hl.
  rewrite decide_False in Hl by done.
  destruct (do_update _ _ _) as [st' [[]|e]]; done.
Qed.

Lemma joinChatRoom_updated_inv (st : Store) member ref room g r :
  joinChatRoom_updated st member ref room = (Some g, r) →
  ∃ u c, get_prop member "userId" = Normal (VStr u) ∧ u ≠ "" ∧
         g = (["UsersChat"; u], st !! ["UsersChat"; u]) ∧ r = Resolved c.
Proof.
  unfold joinChatRoom_updated.
  destruct (get_prop member "userId") as [userId|e] eqn:Hu; simpl; [| discriminate].
  destruct (addToMemberConversations st userId) as [g'|e] eqn:Hg; [| discriminate].
  apply addToMemberConversations_ref in Hg as (u & -> & Hne & ->).
  intros [= <- <-]. eauto 10.
Qed.

Lemma joinChatRoom_updated_none (st : Store) member ref room r :
  joinChatRoom_updated st member ref room = (None, r) → ∃ e, r = Rejected e.
Proof.
  unfold joinChatRoom_updated.
  destruct (_ ≫= _); [discriminate |]. intros [= <-]. eauto.
Qed.

(** The room document after a whole call whose snapshot was open. *)
Lemma joinChatRoom_run_open (st : Store) member key room items :
  get_prop member "id" = Normal (VStr key) → key ≠ "" →
  st !! ["ChatRooms"; key] = Some room →
  truthy (field room "isRemoved") = false → truthy (field room "isOpen") = true →
  field room "members" = VArr items →
  (joinChatRoom_run st member).1 !! ["ChatRooms"; key] = Some (joined room items member) ∧
  (join_succeeded (joinChatRoom_run st member).2 = true ↔
   ∃ u, get_prop member "userId" = Normal (VStr u) ∧ u ≠ "").
Proof.
  intros Hid Hkey Hroom Hrem Hopen Hmem.
  rewrite (joinChatRoom_run_eq _ _ _ Hid Hkey). cbv zeta.
  rewrite Hroom, (joinChatRoom_then_open _ _ _ _ _ _ Hrem Hopen Hmem Hroom).
  destruct (joinChatRoom_updated _ _ _ _) as [[g|] r] eqn:E.
  - apply joinChatRoom_updated_inv in E as (u & c & Hu & Hne & -> & ->). simpl. split.
    + rewrite addToMemberConversations_then_other by done. apply lookup_insert_eq.
    + split; eauto.
  - pose proof E as E'. apply joinChatRoom_updated_none in E as [e ->]. simpl. split.
    + apply lookup_insert_eq.
    + split; [done |]. intros (u & Hu & Hne).
      destruct (joinChatRoom_updated_ok (<[["ChatRooms"; key]:=joined room items member]> st)
                  member ["ChatRooms"; key]
                  (obj_set "isOpen" (VBool false)
                     (obj_set "members" (VArr (items ++ [member])) room)) u Hu Hne)
        as [c Hc].
      rewrite Hc in E'. discriminate.
Qed.

(** C2.  A call of [joinChatRoom] whose [member.id] names the room key
    [key]: an absent document rejects with the does-not-exist error; a
    stored room with [isRemoved] set rejects with the already-removed
    error whatever [isOpen] is; a stored room that is not removed and not
    open rejects with the private-room error; the store is untouched in
    the three cases.  A call that resolves found a stored room that was
    not removed and was open, and leaves it with the new member appended
    to its members and [isOpen = false]; and a call on such a room
    resolves once [member.userId] is a usable key. *)
Theorem joinChatRoom_guards (st : Store) (member : value) (key : string) :
  get_prop member "id" = Normal (VStr key) → key ≠ "" →
  let ref := ["ChatRooms"; key] in
  let r := joinChatRoom_run st member in
  (st !! ref = None → join_failed_with err_not_exist r.2 ∧ r.1 = st) ∧
  (∀ room, st !! ref = Some room → truthy (field room "isRemoved") = true →
     join_failed_with err_removed r.2 ∧ r.1 = st) ∧
  (∀ room, st !! ref = Some room → truthy (field room "isRemoved") = false →
     truthy (field room "isOpen") = false →
     join_failed_with err_private r.2 ∧ r.1 = st) ∧
  (join_succeeded r.2 = true →
     ∃ room items room',
       st !! ref = Some room ∧ truthy (field room "isRemoved") = false ∧
       truthy (field room "isOpen") = true ∧ field room "members" = VArr items ∧
       r.1 !! ref = Some room' ∧ field room' "members" = VArr (items ++ [member]) ∧
       field room' "isOpen" = VBool false ∧
       ∀ k, k ≠ "members" → k ≠ "isOpen" → obj_get k room' = obj_get k room) ∧
  (∀ room items u, st !! ref = Some room → truthy (field room "isRemoved") = false →
     truthy (field room "isOpen") = true → field room "members" = VArr items →
     get_prop member "userId" = Normal (VStr u) → u ≠ "" →
     join_succeeded r.2 = true).
Proof.
  intros Hid Hkey ref r. subst r ref.
  split; [| split; [| split; [| split]]].
  - intros Habs. rewrite (joinChatRoom_run_eq _ _ _ Hid Hkey). cbv zeta.
    by rewrite Habs, joinChatRoom_then_absent.
  - intros room Hroom Hrem. rewrite (joinChatRoom_run_eq _ _ _ Hid Hkey). cbv zeta.
    by rewrite Hroom, (joinChatRoom_then_removed _ _ _ _ Hrem).
  - intros room Hroom Hrem Hopen. rewrite (joinChatRoom_run_eq _ _ _ Hid Hkey). cbv zeta.
    by rewrite Hroom, (joinChatRoom_then_private _ _ _ _ Hrem Hopen).
  - intros Hok.
    destruct (st !! ["ChatRooms"; key]) as [room|] eqn:Hroom.
    2:{ rewrite (joinChatRoom_run_eq _ _ _ Hid Hkey) in Hok. cbv zeta in Hok.
        by rewrite Hroom, joinChatRoom_then_absent in Hok. }
    destruct (truthy (field room "isRemoved")) eqn:Hrem.
    { rewrite (joinChatRoom_run_eq _ _ _ Hid Hkey) in Hok. cbv zeta in Hok.
      by rewrite Hroom, (joinChatRoom_then_removed _ _ _ _ Hrem) in Hok. }
    destruct (truthy (field room "isOpen")) eqn:Hopen.
    2:{ rewrite (joinChatRoom_run_eq _ _ _ Hid Hkey) in Hok. cbv zeta in Hok.
        by rewrite Hroom, (joinChatRoom_then_private _ _ _ _ Hrem Hopen) in Hok. }
    destruct (field room "members") as [| | | | |items| |] eqn:Hmem;
      try (rewrite (joinChatRoom_run_eq _ _ _ Hid Hkey) in Hok; cbv zeta in Hok;
           rewrite Hroom in Hok; unfold joinChatRoom_then in Hok; simpl in Hok;
           rewrite Hrem, Hopen, Hmem in Hok; discriminate).
    destruct (joinChatRoom_run_open _ _ _ _ _ Hid Hkey Hroom Hrem Hopen Hmem) as [Hst _].
    destruct (joined_fields room items member) as (F1 & F2 & F3).
    exists room, items, (joined room items member). eauto 10.
  - intros room items u Hroom Hrem Hopen Hmem Hu Hne.
    apply (joinChatRoom_run_open _ _ _ _ _ Hid Hkey Hroom Hrem Hopen Hmem). eauto.
Qed.

Lemma joinChatRoom_guards_witness :
  join_failed_with err_not_exist (joinChatRoom_run ∅ (sample.joiner "r1" "u2")).2 ∧
  join_failed_with err_removed
    (joinChatRoom_run sample.st_removed (sample.joiner "r1" "u2")).2 ∧
  join_failed_with err_private
    (joinChatRoom_run sample.st_closed (sample.joiner "r1" "u3")).2 ∧
  join_succeeded (joinChatRoom_run sample.st_open (sample.joiner "r1" "u2")).2 = true.
Proof.
  assert (Hkey : "r1" ≠ "") by discriminate.
  assert (Hu : "u2" ≠ "") by discriminate.
  split; [| split; [| split]].
  - apply (joinChatRoom_guards ∅ (sample.joiner "r1" "u2") "r1" eq_refl Hkey). reflexivity.
  - eapply (joinChatRoom_guards sample.st_removed (sample.joiner "r1" "u2") "r1" eq_refl Hkey);
      reflexivity.
  - eapply (joinChatRoom_guards sample.st_closed (sample.joiner "r1" "u3") "r1" eq_refl Hkey);
      reflexivity.
  - eapply (joinChatRoom_guards sample.st_open (sample.joiner "r1" "u2") "r1" eq_refl Hkey);
      [reflexivity .. | exact Hu].
Defined.



(** ** Two joins on the same open room *)

Section race.
Variables (key : string) (room : Doc) (items : list value).
Hypothesis Hkey : key ≠ "".
Hypothesis Hrem : truthy (field room "isRemoved") = false.
Hypothesis Hopen : truthy (field room "isOpen") = true.
Hypothesis Hmem : field room "members" = VArr items.

Local Abbreviation ref := ["ChatRooms"; key].

Lemma room_not_closed : ¬ closed_doc room.
Proof using Hopen. intros [_ H]. congruence. Qed.

Lemma joined_written_by (member : value) (d : Doc) :
  truthy (field d "isRemoved") = false → written_by items member (joined d items member).
Proof.
  intros H. destruct (joined_fields d items member) as (F1 & F2 & F3).
  repeat split; [| by rewrite F2 | done].
  unfold field. rewrite F3 by done. exact H.
Qed.

Lemma room_state_not_removed m m' t other d :
  room_state room items m m' t other d → truthy (field d "isRemoved") = false.
Proof using Hrem. intros [(-> & _)|[([[H _] _] & _)|([[H _] _] & _)]]; done. Qed.

(** One step of one call keeps what is known of that call, of the other
    call and of the room. *)
Lemma thread_step (m m' : value) (u : string) (t other : join_thread) (st : Store) (d : Doc) :
  get_prop m "id" = Normal (VStr key) →
  get_prop m "userId" = Normal (VStr u) → u ≠ "" →
  thread_inv key room m u t →
  (saw_closed t → has_written other) →
  st !! ref = Some d →
  room_state room items m m' t other d →
  let s := join_step st t in
  thread_inv key room m u s.2 ∧
  (has_written t → has_written s.2) ∧
  (saw_closed s.2 → has_written other) ∧
  ∃ d', s.1 !! ref = Some d' ∧ room_state room items m m' s.2 other d'.
Proof using Hkey Hrem Hopen Hmem.
  intros Hid Hu Hne Ht Hsaw Hst Hd.
  destruct Ht as [|d0 Hd0|room'|c chatKey g Hg|c|]; simpl.
  - rewrite (joinChatRoom_key _ _ _ Hid Hkey), Hst. simpl.
    split; [| split; [done | split]].
    + constructor. destruct Hd as [(-> & _)|[(_ & [])|([Hc _] & _)]]; auto.
    + intros Hc. destruct Hd as [(-> & _)|[(_ & [])|(_ & Hw)]]; [| done].
      by destruct room_not_closed.
    + exists d. split; [done |]. unfold room_state in *. simpl in *. tauto.
  - destruct Hd0 as [->|Hclosed].
    + rewrite (joinChatRoom_then_open _ _ _ _ _ _ Hrem Hopen Hmem Hst). simpl.
      split; [constructor | split; [done | split; [done |]]].
      exists (joined d items m). split; [apply lookup_insert_eq |].
      right; left. split; [| done].
      apply joined_written_by. eapply room_state_not_removed, Hd.
    + destruct Hclosed as [Hr Ho].
      rewrite (joinChatRoom_then_private _ _ _ _ Hr Ho). simpl.
      split; [constructor | split; [done | split]].
      * intros _. apply Hsaw. by split.
      * exists d. split; [done |]. unfold room_state in *. simpl in *. tauto.
  - destruct (joinChatRoom_updated_ok st m ref room' u Hu Hne) as [c Hc].
    rewrite Hc. simpl.
    split; [by constructor | split; [done | split; [done |]]].
    exists d. split; [done |]. unfold room_state in *. simpl in *. tauto.
  - split; [constructor | split; [done | split; [done |]]].
    exists d. split.
    + rewrite addToMemberConversations_then_other; [done |]. rewrite Hg. done.
    + unfold room_state in *. simpl in *. tauto.
  - split; [constructor | split; [done | split; [done |]]]. eauto.
  - split; [constructor | split; [done | split; [done |]]]. eauto.
Qed.

Variables (memberA memberB : value) (uA uB : string).
Hypothesis HidA : get_prop memberA "id" = Normal (VStr key).
Hypothesis HuA : get_prop memberA "userId" = Normal (VStr uA).
Hypothesis HneA : uA ≠ "".
Hypothesis HidB : get_prop memberB "id" = Normal (VStr key).
Hypothesis HuB : get_prop memberB "userId" = Normal (VStr uB).
Hypothesis HneB : uB ≠ "".

Local Abbreviation inv := (race_inv key room items memberA memberB uA uB).

Lemma room_state_swap m m' t other d :
  room_state room items m m' t other d → room_state room items m' m other t d.
Proof. unfold room_state. tauto. Qed.

Lemma race_step_inv (c : caller) (r : race) : inv r → inv (race_step c r).
Proof using All.
  intros (Ha & Hb & Hsa & Hsb & d & Hst & Hd). destruct c; simpl.
  - destruct (thread_step memberA memberB uA (r_a r) (r_b r) (r_store r) d
                HidA HuA HneA Ha Hsa Hst Hd) as (Ha' & Hmono & Hsa' & d' & Hst' & Hd').
    repeat split; simpl; eauto.
  - apply room_state_swap in Hd.
    destruct (thread_step memberB memberA uB (r_b r) (r_a r) (r_store r) d
                HidB HuB HneB Hb Hsb Hst Hd) as (Hb' & Hmono & Hsb' & d' & Hst' & Hd').
    apply room_state_swap in Hd'.
    repeat split; simpl; eauto.
Qed.

Lemma race_run_inv (schedule : list caller) (r : race) : inv r → inv (race_run schedule r).
Proof using All.
  revert r. induction schedule as [|c schedule IH]; intros r Hr; [done |].
  apply IH, race_step_inv, Hr.
Qed.

Lemma two_joins_inv (st : Store) :
  st !! ref = Some room → inv (two_joins st memberA memberB).
Proof.
  intros Hst. repeat split; simpl; try constructor; try done.
  exists room. split; [done |]. left. simpl. tauto.
Qed.

(** What the invariant says of the members of the room. *)
Lemma inv_members (r : race) :
  inv r →
  (¬ has_written (r_a r) ∧ ¬ has_written (r_b r) ∧
   room_members (r_store r) ref = Some items) ∨
  room_members (r_store r) ref = Some (items ++ [memberA]) ∨
  room_members (r_store r) ref = Some (items ++ [memberB]).
Proof using Hmem.
  intros (_ & _ & _ & _ & d & Hst & Hd). unfold room_members. rewrite Hst.
  destruct Hd as [(-> & Hn1 & Hn2)|[([_ Hm] & _)|([_ Hm] & _)]].
  - left. by rewrite Hmem.
  - right; left. by rewrite Hm.
  - right; right. by rewrite Hm.
Qed.

(** What the invariant says of the two outcomes. *)
Lemma inv_outcome_a (r : race) :
  inv r →
  join_outcome (r_a r) = None ∨ join_succeeded (r_a r) = true ∨
  (join_failed_with err_private (r_a r) ∧ has_written (r_b r)).
Proof.
  intros (Ha & _ & Hsa & _). destruct Ha; simpl in *; auto.
  right; right. split; [done | auto].
Qed.

Lemma inv_outcome_b (r : race) :
  inv r →
  join_outcome (r_b r) = None ∨ join_succeeded (r_b r) = true ∨
  (join_failed_with err_private (r_b r) ∧ has_written (r_a r)).
Proof.
  intros (_ & Hb & _ & Hsb & _). destruct Hb; simpl in *; auto.
  right; right. split; [done | auto].
Qed.

Lemma written_outcome (m : value) (u : string) (t : join_thread) :
  thread_inv key room m u t → has_written t → is_Some (join_outcome t) →
  join_succeeded t = true.
Proof. intros Ht Hw [o Ho]. destruct Ht; simpl in *; done. Qed.

Lemma succeeded_written (m : value) (u : string) (t : join_thread) :
  thread_inv key room m u t → join_succeeded t = true → has_written t.
Proof. intros Ht Hs. destruct Ht; simpl in *; done. Qed.

End race.

Lemma joinChatRoom_run_private (st : Store) member key room :
  get_prop member "id" = Normal (VStr key) → key ≠ "" →
  st !! ["ChatRooms"; key] = Some room →
  truthy (field room "isRemoved") = false → truthy (field room "isOpen") = false →
  joinChatRoom_run st member = (st, JSettled (Rejected err_private)).
Proof.
  intros Hid Hkey Hroom Hrem Hopen.
  rewrite (joinChatRoom_run_eq _ _ _ Hid Hkey). cbv zeta.
  by rewrite Hroom, (joinChatRoom_then_private _ _ _ _ Hrem Hopen).
Qed.

Lemma race_one_after_the_other (st : Store) memberA memberB :
  race_run one_after_the_other (two_joins st memberA memberB) =
  let a := joinChatRoom_run st memberA in
  let b := joinChatRoom_run a.1 memberB in
  {| r_store := b.1; r_a := a.2; r_b := b.2 |}.
Proof.
  cbv [one_after_the_other race_run foldl race_step two_joins r_store r_a r_b
       joinChatRoom_run].
  reflexivity.
Qed.




(** ** Sending a message *)

(** C5.  In a room object with two members, a [from] that is a string or
    an object with a [userId] field, and whose user id is strictly equal
    to neither member's [userId], makes [sendMessage] throw a
    [MessageError] and leave the store as it was, whatever the other
    fields of the room are ([isOpen] and [isRemoved] among them).  When
    the body is a non-empty string and [from] is not empty, the error is
    the one saying that the user must be in the chat room. *)
Theorem sendMessage_from_not_member (now : Z) (newId : string) (st : Store)
  (this : ChatRoom.t) (body from m0 m1 u0 u1 x : value) :
  ChatRoom.members this = VArr [m0; m1] →
  get_prop m0 "userId" = Normal u0 → get_prop m1 "userId" = Normal u1 →
  from_userId from = Some x →
  strict_eq u0 x = false → strict_eq u1 x = false →
  ∃ msg, sendMessage now newId st this body from = (Throw (MessageError msg), st) ∧
         (not_a_name body = false → lodash.isEmpty from = false →
          MessageError msg = err_from_member).
Proof.
  intros Hm H0 H1 Hx E0 E1. unfold sendMessage, new_Message, not_a_name.
  destruct (lodash.isEmpty body || negb (lodash.isString body));
    [eexists; split; [reflexivity | done] |].
  destruct (lodash.isEmpty from) eqn:Hfe; [eexists; split; [reflexivity | done] |].
  exists " 'from' user must be in this chat room". split; [| done].
  destruct from as [| | | |s| |fields|]; try discriminate; simpl in Hx.
  - injection Hx as <-.
    unfold in_neither, member_differs. simpl. rewrite Hm. simpl.
    rewrite H0. simpl. rewrite E0. simpl. rewrite H1. simpl. by rewrite E1.
  - unfold in_neither, member_differs. simpl. rewrite Hx, Hm. simpl.
    rewrite H0. simpl. rewrite E0. simpl. rewrite H1. simpl. by rewrite E1.
Qed.

Lemma sendMessage_from_not_member_witness :
  sendMessage 9 "m1" sample.st_closed sample.chat (VStr "hello") (VStr "u3")
  = (Throw err_from_member, sample.st_closed) ∧
  sendMessage 9 "m1" sample.st_closed sample.chat (VStr "hello") (sample.member "u3")
  = (Throw err_from_member, sample.st_closed).
Proof.
  split.
  - destruct (sendMessage_from_not_member 9 "m1" sample.st_closed sample.chat
                (VStr "hello") (VStr "u3") _ _ _ _ _ eq_refl eq_refl eq_refl eq_refl
                eq_refl eq_refl) as (msg & -> & Hmsg).
    by rewrite Hmsg.
  - destruct (sendMessage_from_not_member 9 "m1" sample.st_closed sample.chat
                (VStr "hello") (sample.member "u3") _ _ _ _ _ eq_refl eq_refl eq_refl
                eq_refl eq_refl eq_refl) as (msg & -> & Hmsg).
    by rewrite Hmsg.
Defined.

(** ** Validation comes before any write *)

Lemma check_member_lacks (member : value) :
  lacks_userId member = true → ∃ e, check_member member = Throw e.
Proof.
  unfold lacks_userId, check_member, not_a_name.
  destruct (get_prop member "userId") as [userId|e]; simpl; [| eauto].
  intros ->. eauto.
Qed.

Lemma forEach_check_lacks (items : list value) (member : value) :
  member ∈ items → lacks_userId member = true → ∃ e, forEach_check items = Throw e.
Proof.
  intros Hin Hl. induction Hin as [member items|member m' items Hin IH]; simpl.
  - destruct (check_member_lacks _ Hl) as [e ->]. simpl. eauto.
  - destruct (check_member m') as [m''|e]; simpl; [| eauto].
    destruct (IH Hl) as [e ->]. simpl. eauto.
Qed.

Lemma createChatRoom_run_throw (now : Z) (newId : string) (st : Store)
  (title members : value) :
  is_throw (cr_returned (createChatRoom now newId st title members)) = true →
  cr_store (createChatRoom now newId st title members) = st ∧
  cr_pending (createChatRoom now newId st title members) = None ∧
  (createChatRoom_run now newId st title members).2 = st.
Proof.
  unfold createChatRoom_run, createChatRoom.
  destruct (lodash.isEmpty title || negb (lodash.isString title)); [done |].
  destruct members; try done.
  destruct (forEach_check items); done.
Qed.

(** C6.  A title, a member or a message body that fails validation makes
    the call throw with the store exactly as it was and no callback left
    to run: [createChatRoom] for a title that is not a non-empty string
    and for a member list in which some member has no non-empty string
    [userId]; the [Message] constructor, [sendMessage] and [updateBody]
    for a body that is not a non-empty string; [setNewTitle] for such a
    title.  More generally, whenever [createChatRoom] or the [Message]
    constructor throws, the store is as before the call. *)
Theorem validation_before_write (now : Z) (newId : string) (st : Store) :
  (∀ title members, not_a_name title = true →
     createChatRoom_run now newId st title members
     = (Throw (ChatRoomError "title should be not empty and be string"), st) ∧
     cr_pending (createChatRoom now newId st title members) = None) ∧
  (∀ title items member, member ∈ items → lacks_userId member = true →
     ∃ e, createChatRoom_run now newId st title (VArr items) = (Throw e, st) ∧
          cr_pending (createChatRoom now newId st title (VArr items)) = None) ∧
  (∀ body from chatRoom fromRef, not_a_name body = true →
     new_Message now newId st body from chatRoom fromRef = (Throw err_body, st)) ∧
  (∀ this body from, not_a_name body = true →
     sendMessage now newId st this body from = (Throw err_body, st)) ∧
  (∀ this newBody callback, not_a_name newBody = true →
     updateBody now st this newBody callback = (Throw err_body, st)) ∧
  (∀ this title onComplete, not_a_name title = true →
     setNewTitle st this title onComplete
     = (Throw (ChatRoomError "title should be not empty and string"), st)) ∧
  (∀ title members,
     is_throw (cr_returned (createChatRoom now newId st title members)) = true →
     (createChatRoom_run now newId st title members).2 = st ∧
     cr_pending (createChatRoom now newId st title members) = None) ∧
  (∀ body from chatRoom fromRef,
     is_throw (new_Message now newId st body from chatRoom fromRef).1 = true →
     (new_Message now newId st body from chatRoom fromRef).2 = st).
Proof.
  unfold not_a_name.
  refine (conj _ (conj _ (conj _ (conj _ (conj _ (conj _ (conj _ _))))))).
  - intros title members H. unfold createChatRoom_run, createChatRoom.
    by rewrite H.
  - intros title items member Hin Hl. unfold createChatRoom_run, createChatRoom.
    destruct (lodash.isEmpty title || negb (lodash.isString title)); [eauto |].
    destruct (forEach_check_lacks _ _ Hin Hl) as [e ->]. eauto.
  - intros body from chatRoom fromRef H. unfold new_Message. by rewrite H.
  - intros this body from H. unfold sendMessage, new_Message. by rewrite H.
  - intros this newBody callback H. unfold updateBody. by rewrite H.
  - intros this title onComplete H. unfold setNewTitle. rewrite orb_comm. by rewrite H.
  - intros title members H.
    destruct (createChatRoom_run_throw now newId st title members H) as (_ & ? & ?).
    done.
  - intros body from chatRoom fromRef. unfold new_Message.
    repeat case_match; simpl; done.
Qed.

Lemma validation_before_write_witness :
  createChatRoom_run 7 "r2" sample.st_closed (VStr "") (VArr [sample.member "u1"])
  = (Throw (ChatRoomError "title should be not empty and be string"), sample.st_closed) ∧
  (∃ e, createChatRoom_run 7 "r2" sample.st_closed (VStr "Trip")
          (VArr [sample.member "u1"; VObj [("username", VStr "bob")]])
        = (Throw e, sample.st_closed) ∧
        cr_pending (createChatRoom 7 "r2" sample.st_closed (VStr "Trip")
                      (VArr [sample.member "u1"; VObj [("username", VStr "bob")]])) = None) ∧
  sendMessage 7 "m1" sample.st_closed sample.chat (VNum 3) (VStr "u1")
  = (Throw err_body, sample.st_closed).
Proof.
  destruct (validation_before_write 7 "r2" sample.st_closed)
    as (Htitle & Hmember & _ & _ & _ & _ & _ & _).
  destruct (validation_before_write 7 "m1" sample.st_closed)
    as (_ & _ & _ & Hsend & _ & _ & _ & _).
  split; [| split].
  - apply Htitle. reflexivity.
  - apply (Hmember (VStr "Trip") _ (VObj [("username", VStr "bob")])).
    + apply list_elem_of_further, list_elem_of_here.
    + reflexivity.
  - apply Hsend. reflexivity.
Defined.

(** ** Creating a room *)

(** C3, where the code departs from it.  For the title ["Trip"] and the
    two members [{userId: "u1"}] and [{userId: "u2"}], on an empty store:
    the room is stored with [createdAt = now], [isOpen = true] and
    [isRemoved = false], each member has [username = ""], and both index
    documents list the room; but no stored member has a [photo] field
    (the default went to a field named [phtot]), and the call evaluates
    to [undefined], not to the room. *)
Theorem createChatRoom_photo_and_result :
  let r := createChatRoom_run 7 "r1" ∅ (VStr "Trip")
             (VArr [sample.member "u1"; sample.member "u2"]) in
  r.1 = Normal VUndefined ∧
  r.2 !! ["ChatRooms"; "r1"]
  = Some (sample.room [sample.stored_member "u1"; sample.stored_member "u2"] false true) ∧
  r.2 !! ["UsersChat"; "u1"] = Some [("r1", VStr "r1")] ∧
  r.2 !! ["UsersChat"; "u2"] = Some [("r1", VStr "r1")] ∧
  get_prop (sample.stored_member "u1") "username" = Normal (VStr "") ∧
  get_prop (sample.stored_member "u1") "photo" = Normal VUndefined ∧
  get_prop (sample.stored_member "u1") "phtot" = Normal (VStr "") ∧
  get_prop (sample.stored_member "u2") "photo" = Normal VUndefined.
Proof. cbv zeta. repeat split; by vm_compute. Qed.

(** For every member that passes the checks, the stored member has the
    default for [username], and its [photo] is what it was: an absent
    [photo] stays absent. *)
Lemma check_member_fields (fields : list (string * value)) (member' : value) :
  check_member (VObj fields) = Normal member' →
  get_prop member' "username" = Normal (js_or (field fields "username") (VStr "")) ∧
  get_prop member' "photo" = Normal (field fields "photo") ∧
  get_prop member' "phtot" = Normal (js_or (field fields "photo") (VStr "")).
Proof.
  unfold check_member. simpl. fold (field fields "userId").
  fold (field fields "username"). fold (field fields "photo").
  destruct (_ || _); [discriminate |].
  destruct (_ && _); [discriminate |].
  destruct (_ && _); [discriminate |].
  intros [= <-]. simpl. repeat split; f_equal.
  - rewrite obj_get_set_ne by done. by rewrite obj_get_set_eq.
  - rewrite !obj_get_set_ne by done. done.
  - by rewrite obj_get_set_eq.
Qed.

(** One index callback: the document it is aimed at lists the room
    afterwards, provided the document its snapshot saw is still there;
    what was listed stays listed, what was stored stays stored, and no
    other document changes. *)
Lemma addToMemberConversations_then_step (chatKey : string) (st : Store) (g : pending_get) :
  (is_Some g.2 → is_Some (st !! g.1)) →
  let st' := addToMemberConversations_then chatKey st g in
  listed chatKey st' g.1 ∧
  (∀ idx, listed chatKey st idx → listed chatKey st' idx) ∧
  (∀ idx, is_Some (st !! idx) → is_Some (st' !! idx)).
Proof.
  intros Hsnap. cbv zeta.
  assert (Hhere : listed chatKey (addToMemberConversations_then chatKey st g) g.1).
  { unfold addToMemberConversations_then, listed. destruct g.2 as [snap|].
    - destruct Hsnap as [d Hd]; [eauto |].
      rewrite (do_update_present _ _ _ _ Hd). simpl. rewrite lookup_insert_eq.
      eexists. split; [done |]. unfold store.merge. simpl. apply field_set_eq.
    - unfold store.set. rewrite lookup_insert_eq. eexists. split; [done |].
      unfold field. simpl. by rewrite decide_True. }
  split; [done |]. split.
  - intros idx Hl. destruct (decide (idx = g.1)) as [->|Hne]; [done |].
    unfold listed. by rewrite addToMemberConversations_then_other.
  - intros idx Hs. destruct (decide (idx = g.1)) as [->|Hne].
    + destruct Hhere as (d & -> & _). eauto.
    + by rewrite addToMemberConversations_then_other.
Qed.

Lemma foldl_addToMemberConversations_then (chatKey : string) (st0 : Store)
  (gets : list pending_get) (st : Store) :
  Forall (fun g : pending_get => g.2 = st0 !! g.1) gets →
  (∀ idx, is_Some (st0 !! idx) → is_Some (st !! idx)) →
  let st' := foldl (addToMemberConversations_then chatKey) st gets in
  (∀ g, g ∈ gets → listed chatKey st' g.1) ∧
  (∀ idx, listed chatKey st idx → listed chatKey st' idx) ∧
  (∀ p, (∀ g, g ∈ gets → p ≠ g.1) → st' !! p = st !! p).
Proof.
  intros Hgets. revert st. induction Hgets as [|g gets Hg _ IH]; intros st Hst; simpl.
  { split; [| done]. intros g Hin. by apply elem_of_nil in Hin. }
  destruct (addToMemberConversations_then_step chatKey st g) as (Hhere & Hkeep & Hsome).
  { rewrite Hg. apply Hst. }
  destruct (IH (addToMemberConversations_then chatKey st g)) as (IH1 & IH2 & IH3).
  { intros idx Hs. apply Hsome, Hst, Hs. }
  split; [| split].
  - intros g' [->|Hin]%elem_of_cons; [by apply IH2 | by apply IH1].
  - intros idx Hl. by apply IH2, Hkeep.
  - intros p Hp. rewrite IH3.
    + apply addToMemberConversations_then_other. apply Hp, list_elem_of_here.
    + intros g' Hin. by apply Hp, list_elem_of_further.
Qed.

(** The index reads are all of documents of [UsersChat]. *)
Lemma forEach_add_refs (st : Store) (members : list value) (g : pending_get) :
  g ∈ (forEach_add st members).1 → ∃ u, g.1 = ["UsersChat"; u].
Proof.
  induction members as [|member members IH]; simpl; [intros H; by inversion H |].
  destruct (_ ≫= _) as [g'|e] eqn:E; simpl; [| intros H; by inversion H].
  intros [->|Hin]%elem_of_cons; [| by apply IH].
  destruct (get_prop member "userId") as [userId|]; simpl in E; [| discriminate].
  apply addToMemberConversations_ref in E as (u & _ & _ & ->). eauto.
Qed.

(** A member that passed the checks is an object with the [userId] it
    had. *)
Lemma check_member_userId (member member' : value) :
  check_member member = Normal member' →
  ∃ u, u ≠ "" ∧ get_prop member' "userId" = Normal (VStr u).
Proof.
  unfold check_member.
  destruct (get_prop member "userId") as [userId|e] eqn:Hget; simpl; [| discriminate].
  destruct (lodash.isEmpty userId || negb (lodash.isString userId)) eqn:E;
    [discriminate |].
  apply orb_false_elim in E as [Hempty Hstring].
  destruct userId as [| | | |u| | |]; try discriminate. simpl in Hempty.
  apply bool_decide_eq_false in Hempty.
  destruct member as [| | | | | |fields|path]; try discriminate; simpl in *.
  destruct (_ && _); [discriminate |]. destruct (_ && _); [discriminate |].
  intros [= <-]. exists u. split; [done |]. simpl.
  rewrite !obj_get_set_ne by done.
  injection Hget as Hget. by rewrite Hget.
Qed.

Lemma forEach_add_checked (st : Store) (items items' : list value) :
  forEach_check items = Normal items' →
  (forEach_add st items').2 = None ∧
  Forall (fun g : pending_get => g.2 = st !! g.1) (forEach_add st items').1 ∧
  ∀ member u, member ∈ items' → get_prop member "userId" = Normal (VStr u) →
              (["UsersChat"; u], st !! ["UsersChat"; u]) ∈ (forEach_add st items').1.
Proof.
  revert items'. induction items as [|member items IH]; intros items'; simpl.
  { intros [= <-]. simpl. split; [done |]. split; [constructor |].
    intros member u Hin. by inversion Hin. }
  destruct (check_member member) as [member'|e] eqn:Hc; simpl; [| discriminate].
  destruct (forEach_check items) as [rest|e]; simpl; [| discriminate].
  intros [= <-]. destruct (IH rest eq_refl) as (IH1 & IH2 & IH3).
  destruct (check_member_userId _ _ Hc) as (u & Hne & Hu).
  simpl. rewrite Hu. simpl. rewrite (addToMemberConversations_user _ _ Hne). simpl.
  split; [done |]. split; [by constructor |].
  intros m u' [->|Hin]%elem_of_cons Hm.
  - rewrite Hu in Hm. injection Hm as <-. apply list_elem_of_here.
  - apply list_elem_of_further. exact (IH3 m u' Hin Hm).
Qed.

(** What [createChatRoom] does for a valid title and members that pass
    the checks: the room is stored under the new key with
    [createdAt = now], [isRemoved = false] and [isOpen = true], the index
    document of every member lists the room, and the call evaluates to
    [undefined]. *)
Lemma createChatRoom_persists (now : Z) (newId : string) (st : Store) (title : value)
  (items items' : list value) :
  not_a_name title = false → forEach_check items = Normal items' →
  let r := createChatRoom_run now newId st title (VArr items) in
  r.1 = Normal VUndefined ∧
  r.2 !! ["ChatRooms"; newId]
  = Some [("title", title); ("members", VArr items'); ("createdAt", VNum now);
          ("isRemoved", VBool false); ("isOpen", VBool true)] ∧
  ∀ member u, member ∈ items' → get_prop member "userId" = Normal (VStr u) →
              listed newId r.2 ["UsersChat"; u].
Proof.
  intros Htitle Hitems. unfold not_a_name in Htitle.
  unfold createChatRoom_run, createChatRoom, createChatRoom_then.
  rewrite Htitle, Hitems. simpl. unfold ref_id. simpl.
  set (st0 := store.set st _ _).
  destruct (forEach_add_checked st0 _ _ Hitems) as (_ & Hgets & Hin).
  destruct (foldl_addToMemberConversations_then newId st0 (forEach_add st0 items').1 st0
              Hgets (fun _ H => H)) as (Hl & _ & Hother).
  split; [done |]. split.
  - rewrite Hother.
    + subst st0. unfold store.set. apply lookup_insert_eq.
    + intros g Hg Heq. destruct (forEach_add_refs _ _ _ Hg) as [u Hu].
      rewrite Hu in Heq. discriminate.
  - intros member u Hm Hu. apply (Hl _ (Hin member u Hm Hu)).
Qed.

(** ** Listing the rooms of a user *)

Lemma forEach_get_found_le (st : Store) (ids : list string) :
  (length (filter (fun g : pending_get => is_Some g.2) (forEach_get st ids))
   ≤ length ids)%nat.
Proof.
  induction ids as [|id ids IH]; simpl; [done |].
  destruct (decide (id = "")); simpl; [lia |].
  rewrite filter_cons. case_decide; simpl; lia.
Qed.

(** An id without a room document leaves fewer found rooms than ids. *)
Lemma forEach_get_dangling (st : Store) (ids : list string) (id : string) :
  id ∈ ids → st !! ["ChatRooms"; id] = None →
  (length (filter (fun g : pending_get => is_Some g.2) (forEach_get st ids))
   < length ids)%nat.
Proof.
  intros Hin Hnone. induction Hin as [id ids|id id' ids Hin IH]; simpl.
  - destruct (decide (id = "")); simpl; [lia |].
    rewrite filter_cons. unfold store.get. rewrite decide_False.
    + pose proof (forEach_get_found_le st ids). simpl. lia.
    + simpl. rewrite Hnone. by intros [? ?].
  - destruct (decide (id' = "")); simpl; [lia |].
    rewrite filter_cons. specialize (IH Hnone). case_decide; simpl; lia.
Qed.

(** The shared array never holds more rooms than were found, and
    [onComplete] is not called while it holds fewer than [n_ids]. *)
Lemma foldl_room_fetched (n_ids : nat) (l : list pending_get) (acc : fan_in) :
  (length (fi_list acc) + length (filter (fun g : pending_get => is_Some g.2) l)
   < n_ids)%nat →
  fi_calls (foldl (room_fetched n_ids) acc l) = fi_calls acc.
Proof.
  revert acc. induction l as [|g l IH]; intros acc Hlt; simpl; [done |].
  rewrite filter_cons in Hlt. unfold room_fetched at 2.
  destruct g.2 as [snap|] eqn:Hg.
  - rewrite decide_True in Hlt by eauto. simpl in Hlt.
    destruct (chat_of_snapshot g.1 snap) as [newChat|e].
    + rewrite IH; simpl; rewrite length_app; simpl; [| lia].
      rewrite decide_False; [done | lia].
    + apply IH. lia.
  - rewrite decide_False in Hlt by (by intros [? ?]). by apply IH.
Qed.

(** C4, where the code departs from it.  When the index record of the
    user lists an id that has no room document, [onComplete] is never
    called, in whatever order the room reads come back: the completion
    test compares the number of rooms found with the number of ids. *)
Theorem getUserChatRooms_dangling (st : Store) (user : value) (p : pending_get)
  (data : Doc) (id : string) (order : list pending_get → list pending_get) :
  getUserChatRooms st user = Normal p → p.2 = Some data →
  id ∈ keys data → st !! ["ChatRooms"; id] = None →
  (∀ l, order l ≡ₚ l) →
  getUserChatRooms_then st p order = [].
Proof.
  intros _ Hdata Hin Hnone Horder. unfold getUserChatRooms_then. rewrite Hdata.
  rewrite foldl_room_fetched; [done |]. simpl.
  rewrite (Horder (forEach_get st (keys data))).
  by apply forEach_get_dangling with id.
Qed.

Lemma getUserChatRooms_dangling_witness :
  getUserChatRooms_then sample.st_dangling
    (["UsersChat"; "u1"], Some [("r1", VStr "r1"); ("gone", VStr "gone")]) id = [].
Proof.
  apply (getUserChatRooms_dangling sample.st_dangling (VStr "u1") _
           [("r1", VStr "r1"); ("gone", VStr "gone")] "gone").
  - by vm_compute.
  - reflexivity.
  - apply list_elem_of_further, list_elem_of_here.
  - by vm_compute.
  - done.
Defined.

(** With every listed room in place the callback is called, once. *)
Lemma getUserChatRooms_all_found :
  ∃ chat, getUserChatRooms_run sample.st_listed (VStr "u1")
          = Normal [OnComplete VUndefined (Some [chat])].
Proof. eexists. by vm_compute. Qed.

(** ** Removing the rooms two users share *)

Lemma includes_false (l : list string) (x : string) : includes l x = false → x ∉ l.
Proof. unfold includes. apply bool_decide_eq_false. Qed.

(** What a remove does to the document it is aimed at. *)
Lemma remove_at_lookup (softRemove : value) (st : Store) (ref p : list string) :
  (if truthy softRemove then (do_update st ref [("isRemoved", VBool true)]).1
   else store.delete st ref) !! p
  = if decide (ref = p)
    then (if truthy softRemove then soft_removed <$> st !! p else None)
    else st !! p.
Proof.
  destruct (truthy softRemove).
  - apply do_update_lookup.
  - unfold store.delete. rewrite lookup_delete. by destruct (decide (ref = p)).
Qed.

Lemma removeMutual_forEach_resolved (userAChats : list string) (softRemove : value)
  (ids : list string) (st : Store) :
  Forall (fun id => id ≠ "") ids →
  (removeMutual_forEach userAChats softRemove ids st).1 = Resolved ().
Proof.
  intros H. revert st. induction H as [|id ids Hid _ IH]; intros st; simpl; [done |].
  rewrite decide_False by done. apply IH.
Qed.

(** A document that is not a shared room is as before. *)
Lemma removeMutual_forEach_other (userAChats : list string) (softRemove : value)
  (ids : list string) (st : Store) (p : list string) :
  (∀ id, id ∈ ids → id ∈ userAChats → p ≠ ["ChatRooms"; id]) →
  (removeMutual_forEach userAChats softRemove ids st).2 !! p = st !! p.
Proof.
  revert st. induction ids as [|id ids IH]; intros st Hp; simpl; [done |].
  destruct (decide (id = "")); simpl; [done |].
  rewrite IH by (intros; apply Hp; [by apply list_elem_of_further | done]).
  unfold includes. case_bool_decide as HA; [| done].
  rewrite remove_at_lookup. rewrite decide_False; [done |].
  intros <-. apply (Hp id); [apply list_elem_of_here | done | done].
Qed.

(** A shared room has had the remove applied. *)
Lemma removeMutual_forEach_shared (userAChats : list string) (softRemove : value)
  (ids : list string) (st : Store) (id : string) :
  Forall (fun id => id ≠ "") ids → id ∈ ids → id ∈ userAChats →
  (removeMutual_forEach userAChats softRemove ids st).2 !! ["ChatRooms"; id]
  = if truthy softRemove then soft_removed <$> st !! ["ChatRooms"; id] else None.
Proof.
  intros Hne. revert st. induction Hne as [|id0 ids Hid0 Hne IH]; intros st Hin HA.
  { by apply elem_of_nil in Hin. }
  simpl. rewrite decide_False by done. simpl.
  set (st' := if includes userAChats id0 then _ else st).
  assert (Hst' : st' !! ["ChatRooms"; id]
                 = if decide (id0 = id)
                   then (if truthy softRemove then soft_removed <$> st !! ["ChatRooms"; id]
                         else None)
                   else st !! ["ChatRooms"; id]).
  { subst st'. unfold includes. destruct (decide (id0 = id)) as [->|Hd].
    - rewrite bool_decide_eq_true_2 by done. rewrite remove_at_lookup.
      by rewrite decide_True.
    - case_bool_decide; [| done]. rewrite remove_at_lookup.
      rewrite decide_False; [done | congruence]. }
  destruct (decide (id ∈ ids)) as [Htail|Htail].
  - rewrite (IH st' Htail HA), Hst'.
    destruct (decide (id0 = id)); [| done].
    destruct (truthy softRemove); [| done].
    destruct (st !! ["ChatRooms"; id]); simpl; [| done].
    by rewrite soft_removed_idem.
  - apply elem_of_cons in Hin as [->|Hin]; [| done].
    rewrite removeMutual_forEach_other.
    + rewrite Hst'. by rewrite decide_True.
    + intros id' Hin' _ [= <-]. done.
Qed.



(** A rejected update does not stop the loop: with the document of r2
    gone, r3 is soft-removed all the same. *)
Lemma removeMutual_goes_on :
  let st := base.delete ["ChatRooms"; "r2"] sample.st_mutual in
  let r := removeMutualChatRooms st (VStr "a") (VStr "b") (VBool true) in
  (do_update st ["ChatRooms"; "r2"] [("isRemoved", VBool true)]).2 = Rejected not_found ∧
  r.2 !! ["ChatRooms"; "r2"] = None ∧
  (fun d => field d "isRemoved") <$> r.2 !! ["ChatRooms"; "r3"] = Some (VBool true).
Proof. cbv zeta. repeat split; by vm_compute. Qed.

(** ** The message feed *)

Lemma on_snapshot_added (now : Z) (st : Store) (this : ChatRoom.t) (changes : list change) :
  on_snapshot now st this changes = on_snapshot now st this (added_entries changes).
Proof.
  unfold added_entries. induction changes as [|c changes IH]; [done |].
  rewrite filter_cons. simpl. destruct (ch_type c) eqn:E.
  - rewrite decide_True by done. simpl. rewrite E.
    destruct (message_of_change now st this c); [| done]. by rewrite IH.
  - rewrite decide_False by done. done.
  - rewrite decide_False by done. done.
Qed.

Lemma on_snapshot_rebuilds (now : Z) (st : Store) (this : ChatRoom.t) (changes : list change) :
  Forall (rebuilds now st this) changes →
  (on_snapshot now st this changes).2 = None ∧
  Forall2 (fun c m => message_of_change now st this c = Normal m)
          (added_entries changes) (on_snapshot now st this changes).1.
Proof.
  unfold added_entries.
  induction 1 as [|c changes Hc _ [IH1 IH2]]; [by split; [| constructor] |].
  rewrite filter_cons. simpl. unfold rebuilds in Hc. destruct (ch_type c) eqn:E.
  - rewrite decide_True by done.
    destruct (message_of_change now st this c) as [m|e] eqn:Em;
      [| by specialize (Hc eq_refl)].
    simpl. split; [done |]. by constructor.
  - by rewrite decide_False.
  - by rewrite decide_False.
Qed.

Lemma on_snapshot_stops (now : Z) (st : Store) (this : ChatRoom.t)
  (pre post : list change) (c : change) (e : error) :
  Forall (rebuilds now st this) pre →
  ch_type c = added → message_of_change now st this c = Throw e →
  on_snapshot now st this (pre ++ c :: post) = ((on_snapshot now st this pre).1, Some e).
Proof.
  intros Hpre Hc He. induction Hpre as [|c0 pre Hc0 _ IH]; simpl.
  - by rewrite Hc, He.
  - unfold rebuilds in Hc0. destruct (ch_type c0); [| done | done].
    destruct (message_of_change now st this c0); [| by specialize (Hc0 eq_refl)].
    by rewrite IH.
Qed.

(** An added entry rebuilds when the room object is bound to a
    reference, the entry has a key, its body is a non-empty string and
    its [from] is the [userId] of one of the two members. *)
Lemma message_of_change_member (now : Z) (st : Store) (this : ChatRoom.t) (c : change)
  (path : list string) (m0 m1 : value) (body from u0 u1 : string) :
  ChatRoom.chatRoomRef this = VRef path → ch_id c ≠ "" →
  ChatRoom.members this = VArr [m0; m1] →
  get_prop m0 "userId" = Normal (VStr u0) → get_prop m1 "userId" = Normal (VStr u1) →
  field (ch_data c) "body" = VStr body → body ≠ "" →
  field (ch_data c) "from" = VStr from → from ≠ "" → from = u0 ∨ from = u1 →
  message_of_change now st this c
  = Normal (Message.mk (VStr body) (VStr from) this (field (ch_data c) "createdAt")
              (VRef (path ++ ["messages"; ch_id c])) VUndefined).
Proof.
  intros Href Hid Hm H0 H1 Hb Hbne Hf Hfne Hfrom.
  unfold message_of_change. rewrite Href. simpl. rewrite decide_False by done. simpl.
  unfold new_Message. rewrite Hb, Hf. simpl.
  rewrite !bool_decide_eq_false_2 by done. simpl.
  unfold in_neither, member_differs. rewrite Hm. simpl. rewrite H0. simpl.
  destruct (decide (u0 = from)) as [->|Hne0].
  - by rewrite bool_decide_eq_true_2.
  - rewrite bool_decide_eq_false_2 by done. simpl. rewrite H1. simpl.
    destruct Hfrom as [-> | ->]; [done |]. by rewrite bool_decide_eq_true_2.
Qed.




(** * Further properties *)

(** ** Creating a room, continued *)

Lemma forEach_add_members (st : Store) (members : list value) (g : pending_get) :
  g ∈ (forEach_add st members).1 →
  ∃ member u, member ∈ members ∧ get_prop member "userId" = Normal (VStr u) ∧
              g.1 = ["UsersChat"; u].
Proof.
  induction members as [|member members IH]; simpl; [intros H; by inversion H |].
  destruct (_ ≫= _) as [g'|e] eqn:E; simpl; [| intros H; by inversion H].
  intros [->|Hin]%elem_of_cons.
  - destruct (get_prop member "userId") as [userId|] eqn:Hu; simpl in E; [| discriminate].
    apply addToMemberConversations_ref in E as (u & -> & _ & ->).
    exists member, u. split; [apply list_elem_of_here | done].
  - destruct (IH Hin) as (m & u & Hm & Hu & Hg).
    exists m, u. split; [by apply list_elem_of_further | done].
Qed.

(** An index callback keeps what the document listed, as long as the
    document its snapshot missed is still missing or lists nothing else. *)
Lemma addToMemberConversations_then_keeps (chatKey k : string) (st : Store)
  (g : pending_get) (idx : list string) :
  (is_Some g.2 → is_Some (st !! g.1)) →
  (g.2 = None → idx = g.1 → k = chatKey) →
  listed k st idx → listed k (addToMemberConversations_then chatKey st g) idx.
Proof.
  intros Hsnap Hnone (d & Hd & Hk).
  destruct (decide (idx = g.1)) as [->|Hne].
  2:{ unfold listed. rewrite addToMemberConversations_then_other by done. eauto. }
  unfold addToMemberConversations_then, listed. destruct g.2 as [snap|].
  - rewrite (do_update_present _ _ _ _ Hd). simpl. rewrite lookup_insert_eq.
    eexists. split; [done |]. unfold store.merge. simpl.
    destruct (decide (chatKey = k)) as [->|Hck].
    + apply field_set_eq.
    + by rewrite field_set_ne.
  - rewrite (Hnone eq_refl eq_refl). unfold store.set. rewrite lookup_insert_eq.
    eexists. split; [done |]. unfold field. simpl. by rewrite decide_True.
Qed.

Lemma foldl_keeps_listed (chatKey k : string) (st0 : Store) (gets : list pending_get)
  (st : Store) (idx : list string) :
  Forall (fun g : pending_get => g.2 = st0 !! g.1) gets →
  (∀ p, is_Some (st0 !! p) → is_Some (st !! p)) →
  (st0 !! idx = None → k = chatKey) →
  listed k st idx → listed k (foldl (addToMemberConversations_then chatKey) st gets) idx.
Proof.
  intros Hgets. revert st. induction Hgets as [|g gets Hg _ IH]; intros st Hst Hk Hl;
    simpl; [done |].
  destruct (addToMemberConversations_then_step chatKey st g) as (_ & _ & Hsome).
  { rewrite Hg. apply Hst. }
  apply IH; [by eauto | done |].
  apply addToMemberConversations_then_keeps; [rewrite Hg; apply Hst | | done].
  intros Hn ->. apply Hk. by rewrite <- Hg.
Qed.



Lemma check_member_object (member member' : value) :
  check_member member = Normal member' → ∃ fields, member = VObj fields.
Proof.
  unfold check_member.
  destruct (get_prop member "userId") as [userId|e] eqn:Hget; simpl; [| discriminate].
  destruct (lodash.isEmpty userId || negb (lodash.isString userId)) eqn:E;
    [discriminate |].
  apply orb_false_elim in E as [Hempty Hstring].
  destruct userId as [| | | |u| | |]; try discriminate.
  destruct member as [| | | | | |fields|path]; try discriminate; simpl in *; eauto.
Qed.

(** X2.  The members [createChatRoom] stores are the members it was
    given, in the same order, each with the [userId] it had, which is a
    non-empty string, with a [username] that is a string (the given one,
    or the empty string when none or a falsy one was given), and with
    the [photo] it had: a missing [photo] is still missing, and a given
    one is a string or a falsy value. *)
Theorem forEach_check_members (items items' : list value) :
  forEach_check items = Normal items' →
  Forall2 (fun member member' =>
             get_prop member' "userId" = get_prop member "userId" ∧
             (∃ u, u ≠ "" ∧ get_prop member' "userId" = Normal (VStr u)) ∧
             (∃ s, get_prop member' "username" = Normal (VStr s)) ∧
             get_prop member' "photo" = get_prop member "photo" ∧
             (∀ photo, get_prop member' "photo" = Normal photo → truthy photo = true →
                       lodash.isString photo = true))
          items items'.
Proof.
  revert items'. induction items as [|member items IH]; intros items'; simpl.
  { intros [= <-]. constructor. }
  destruct (check_member member) as [member'|e] eqn:Hc; simpl; [| discriminate].
  destruct (forEach_check items) as [rest|e]; simpl; [| discriminate].
  intros [= <-]. constructor; [| by apply IH].
  destruct (check_member_object _ _ Hc) as [fields ->].
  destruct (check_member_userId _ _ Hc) as (u & Hne & Hu).
  destruct (check_member_fields _ _ Hc) as (Hname & Hphoto & _).
  revert Hc. unfold check_member. simpl. fold (field fields "userId").
  fold (field fields "username"). fold (field fields "photo").
  destruct (_ || _); [discriminate |].
  destruct (truthy (field fields "username") && _) eqn:En; [discriminate |].
  destruct (truthy (field fields "photo") && _) eqn:Ep; [discriminate |].
  intros [= <-].
  split; [| split; [| split; [| split]]].
  - simpl. f_equal. by rewrite !obj_get_set_ne.
  - eauto.
  - rewrite Hname. unfold js_or.
    destruct (truthy (field fields "username")) eqn:Ht; [| eauto].
    simpl in En. apply negb_false_iff in En.
    destruct (field fields "username"); try discriminate. eauto.
  - by rewrite Hphoto.
  - intros photo. rewrite Hphoto. intros [= <-] Ht. rewrite Ht in Ep. simpl in Ep.
    by apply negb_false_iff in Ep.
Qed.

Lemma forEach_check_members_witness :
  Forall2 (fun member member' =>
             get_prop member' "userId" = get_prop member "userId" ∧
             (∃ u, u ≠ "" ∧ get_prop member' "userId" = Normal (VStr u)) ∧
             (∃ s, get_prop member' "username" = Normal (VStr s)) ∧
             get_prop member' "photo" = get_prop member "photo" ∧
             (∀ photo, get_prop member' "photo" = Normal photo → truthy photo = true →
                       lodash.isString photo = true))
          [sample.member "u1"; VObj [("userId", VStr "u2"); ("username", VNum 0)]]
          [sample.stored_member "u1";
           VObj [("userId", VStr "u2"); ("username", VStr ""); ("phtot", VStr "")]].
Proof. apply forEach_check_members. reflexivity. Defined.

(** ** The room index *)

Lemma addToMemberConversations_run_eq (st : Store) (u chatKey : string) :
  u ≠ "" →
  addToMemberConversations_run st (VStr u) chatKey
  = addToMemberConversations_then chatKey st (["UsersChat"; u], st !! ["UsersChat"; u]).
Proof.
  intros Hu. unfold addToMemberConversations_run.
  by rewrite (addToMemberConversations_user _ _ Hu).
Qed.

(** X3.  A call of [addToMemberConversations] for a user key, run to its
    end with nothing in between, is an upsert: afterwards the user's
    index document lists the room; every room it listed before is still
    listed; a user without an index document gets one with this room
    alone; and no other document changes. *)
Theorem addToMemberConversations_run_upsert (st : Store) (u chatKey : string) :
  u ≠ "" →
  let st' := addToMemberConversations_run st (VStr u) chatKey in
  listed chatKey st' ["UsersChat"; u] ∧
  (∀ k, listed k st ["UsersChat"; u] → listed k st' ["UsersChat"; u]) ∧
  (st !! ["UsersChat"; u] = None →
   st' !! ["UsersChat"; u] = Some [(chatKey, VStr chatKey)]) ∧
  (∀ p, p ≠ ["UsersChat"; u] → st' !! p = st !! p).
Proof.
  intros Hu. cbv zeta. rewrite (addToMemberConversations_run_eq _ _ _ Hu).
  split; [| split; [| split]].
  - destruct (addToMemberConversations_then_listed chatKey st ["UsersChat"; u])
      as (d & Hd & Hf).
    by exists d.
  - intros k Hl. apply addToMemberConversations_then_keeps; simpl; [done | | done].
    intros Hnone _. destruct Hl as (d & Hd & _). congruence.
  - intros Hnone. unfold addToMemberConversations_then. simpl. rewrite Hnone.
    unfold store.set. apply lookup_insert_eq.
  - intros p Hp. by apply addToMemberConversations_then_other.
Qed.

Lemma addToMemberConversations_run_upsert_witness :
  listed "r9" (addToMemberConversations_run sample.st_listed (VStr "u1") "r9")
         ["UsersChat"; "u1"] ∧
  listed "r1" (addToMemberConversations_run sample.st_listed (VStr "u1") "r9")
         ["UsersChat"; "u1"].
Proof.
  assert (Hu : "u1" ≠ "") by discriminate.
  destruct (addToMemberConversations_run_upsert sample.st_listed "u1" "r9" Hu)
    as (H1 & H2 & _).
  split; [exact H1 |]. apply H2. eexists. split; reflexivity.
Defined.

(** X4.  Two calls of [addToMemberConversations] for the same user and
    two rooms.  Run one after the other, they leave both rooms listed.
    With both reads issued before either callback runs, both rooms are
    listed when the user had an index document; when the user had none,
    each callback creates the document, the second replaces the first,
    and the first room is not listed. *)
Theorem addToMemberConversations_both_lost (st : Store) (u k1 k2 : string) :
  u ≠ "" →
  let idx := ["UsersChat"; u] in
  let one_by_one :=
    addToMemberConversations_run (addToMemberConversations_run st (VStr u) k1) (VStr u) k2 in
  let both := addToMemberConversations_both st (VStr u) k1 k2 in
  (listed k1 one_by_one idx ∧ listed k2 one_by_one idx) ∧
  (is_Some (st !! idx) → listed k1 both idx ∧ listed k2 both idx) ∧
  (st !! idx = None →
   both !! idx = Some [(k2, VStr k2)] ∧ (k1 ≠ k2 → ¬ listed k1 both idx)).
Proof.
  intros Hu. cbv zeta.
  assert (A1 : listed k1
                 (addToMemberConversations_then k1 st
                    (["UsersChat"; u], st !! ["UsersChat"; u]))
                 ["UsersChat"; u]).
  { destruct (addToMemberConversations_then_listed k1 st ["UsersChat"; u])
      as (d & Hd & Hf).
    by exists d. }
  split.
  { rewrite !(addToMemberConversations_run_eq _ _ _ Hu). split.
    - apply addToMemberConversations_then_keeps; simpl; [done | | done].
      intros Hnone _. destruct A1 as (d & Hd & _). congruence.
    - destruct (addToMemberConversations_then_listed k2
                  (addToMemberConversations_then k1 st
                     (["UsersChat"; u], st !! ["UsersChat"; u]))
                  ["UsersChat"; u]) as (d & Hd & Hf).
      by exists d. }
  unfold addToMemberConversations_both.
  rewrite (addToMemberConversations_user _ _ Hu).
  split.
  - intros Hsome. split.
    + apply addToMemberConversations_then_keeps; simpl; [| | done].
      * intros _. destruct A1 as (d & -> & _). eauto.
      * intros Hnone. rewrite Hnone in Hsome. by destruct Hsome.
    + destruct (addToMemberConversations_then_step k2
                  (addToMemberConversations_then k1 st
                     (["UsersChat"; u], st !! ["UsersChat"; u]))
                  (["UsersChat"; u], st !! ["UsersChat"; u])) as (H & _); [| exact H].
      simpl. intros _. destruct A1 as (d & -> & _). eauto.
  - intros Hnone.
    assert (Hboth : addToMemberConversations_then k2
                      (addToMemberConversations_then k1 st (["UsersChat"; u], st !! ["UsersChat"; u]))
                      (["UsersChat"; u], st !! ["UsersChat"; u]) !! ["UsersChat"; u]
                    = Some [(k2, VStr k2)]).
    { rewrite Hnone. unfold addToMemberConversations_then at 1. simpl.
      unfold store.set. apply lookup_insert_eq. }
    split; [done |].
    intros Hne (d & Hd & Hf).
    pose proof (eq_trans (eq_sym Hd) Hboth) as E. injection E as ->.
    unfold field in Hf. simpl in Hf. rewrite decide_False in Hf by done. discriminate.
Qed.

Lemma addToMemberConversations_both_lost_witness :
  addToMemberConversations_both sample.st_open (VStr "u1") "r1" "r2" !! ["UsersChat"; "u1"]
  = Some [("r2", VStr "r2")] ∧
  ¬ listed "r1" (addToMemberConversations_both sample.st_open (VStr "u1") "r1" "r2")
      ["UsersChat"; "u1"].
Proof.
  assert (Hu : "u1" ≠ "") by discriminate.
  assert (Hk : "r1" ≠ "r2") by discriminate.
  destruct (addToMemberConversations_both_lost sample.st_open "u1" "r1" "r2" Hu)
    as (_ & _ & Hlost).
  destruct (Hlost eq_refl) as [H1 H2]. split; [exact H1 | exact (H2 Hk)].
Defined.

(** ** Joining a room, continued *)

Lemma joinChatRoom_inv (st : Store) (member : value) (p : pending_get) :
  joinChatRoom st member = Normal p →
  ∃ key, get_prop member "id" = Normal (VStr key) ∧ key ≠ "" ∧
         p = (["ChatRooms"; key], st !! ["ChatRooms"; key]).
Proof.
  unfold joinChatRoom.
  destruct (get_prop member "id") as [id|e]; simpl; [| discriminate].
  destruct id; simpl; try discriminate.
  destruct (decide (s = "")); simpl; [discriminate |].
  intros [= <-]. eauto.
Qed.

Lemma joinChatRoom_run_thrown (st : Store) (member : value) (e : error) :
  joinChatRoom st member = Throw e → joinChatRoom_run st member = (st, JThrown e).
Proof. intros H. unfold joinChatRoom_run. simpl. by rewrite H. Qed.

(** A call that resolved found the room stored, not removed and open. *)
Lemma joinChatRoom_run_succeeded (st : Store) (member : value) (key : string) :
  get_prop member "id" = Normal (VStr key) → key ≠ "" →
  join_succeeded (joinChatRoom_run st member).2 = true →
  ∃ room items,
    st !! ["ChatRooms"; key] = Some room ∧ truthy (field room "isRemoved") = false ∧
    truthy (field room "isOpen") = true ∧ field room "members" = VArr items ∧
    (joinChatRoom_run st member).1 !! ["ChatRooms"; key] = Some (joined room items member).
Proof.
  intros Hid Hkey Hok.
  destruct (st !! ["ChatRooms"; key]) as [room|] eqn:Hroom.
  2:{ rewrite (joinChatRoom_run_eq _ _ _ Hid Hkey) in Hok. cbv zeta in Hok.
      by rewrite Hroom, joinChatRoom_then_absent in Hok. }
  destruct (truthy (field room "isRemoved")) eqn:Hrem.
  { rewrite (joinChatRoom_run_eq _ _ _ Hid Hkey) in Hok. cbv zeta in Hok.
    by rewrite Hroom, (joinChatRoom_then_removed _ _ _ _ Hrem) in Hok. }
  destruct (truthy (field room "isOpen")) eqn:Hopen.
  2:{ rewrite (joinChatRoom_run_eq _ _ _ Hid Hkey) in Hok. cbv zeta in Hok.
      by rewrite Hroom, (joinChatRoom_then_private _ _ _ _ Hrem Hopen) in Hok. }
  destruct (field room "members") as [| | | | |items| |] eqn:Hmem;
    try (rewrite (joinChatRoom_run_eq _ _ _ Hid Hkey) in Hok; cbv zeta in Hok;
         rewrite Hroom in Hok; unfold joinChatRoom_then in Hok; simpl in Hok;
         rewrite Hrem, Hopen, Hmem in Hok; discriminate).
  destruct (joinChatRoom_run_open _ _ _ _ _ Hid Hkey Hroom Hrem Hopen Hmem) as [Hst _].
  eauto 10.
Qed.







(** ** What no operation undoes *)

Lemma flags_kept_refl (d : Doc) : flags_kept d d.
Proof. by split. Qed.

Lemma flags_kept_trans (d1 d2 d3 : Doc) :
  flags_kept d1 d2 → flags_kept d2 d3 → flags_kept d1 d3.
Proof. intros [A1 A2] [B1 B2]. split; auto. Qed.

Lemma rooms_kept_refl (st : Store) : rooms_kept st st.
Proof. intros key d' H. exists d'. split; [done | apply flags_kept_refl]. Qed.

Lemma rooms_kept_trans (st1 st2 st3 : Store) :
  rooms_kept st1 st2 → rooms_kept st2 st3 → rooms_kept st1 st3.
Proof.
  intros H12 H23 key d3 H3. destruct (H23 _ _ H3) as (d2 & H2 & F23).
  destruct (H12 _ _ H2) as (d1 & H1 & F12).
  exists d1. split; [done |]. by apply flags_kept_trans with d2.
Qed.

(** An update whose fields keep the flags keeps the rooms. *)
Lemma rooms_kept_update (st : Store) (ref : list string) (upd : Doc) :
  (∀ d, flags_kept d (store.merge d upd)) → rooms_kept st (do_update st ref upd).1.
Proof.
  intros Hupd key d'. rewrite do_update_lookup.
  destruct (decide (ref = ["ChatRooms"; key])) as [->|Hne]; [| by eexists; split].
  destruct (st !! ["ChatRooms"; key]) as [d|]; simpl; [| discriminate].
  intros [= <-]. eauto.
Qed.

Lemma rooms_kept_delete (st : Store) (ref : list string) :
  rooms_kept st (store.delete st ref).
Proof.
  intros key d'. unfold store.delete. rewrite lookup_delete.
  destruct (decide (ref = ["ChatRooms"; key])); [discriminate |].
  intros H. exists d'. split; [done | apply flags_kept_refl].
Qed.

(** A write outside the rooms keeps the rooms. *)
Lemma rooms_kept_frame (st st' : Store) :
  (∀ key, st' !! ["ChatRooms"; key] = st !! ["ChatRooms"; key]) → rooms_kept st st'.
Proof.
  intros H key d'. rewrite H. intros Hd. exists d'. split; [done | apply flags_kept_refl].
Qed.

Lemma flags_kept_removed (d : Doc) : flags_kept d (store.merge d [("isRemoved", VBool true)]).
Proof.
  unfold store.merge. simpl. split; intros H.
  - by rewrite field_set_eq.
  - by rewrite field_set_ne.
Qed.

Lemma flags_kept_joined (d : Doc) (members : value) :
  flags_kept d (store.merge d [("members", members); ("isOpen", VBool false)]).
Proof.
  unfold store.merge. simpl. split; intros H.
  - by rewrite !field_set_ne.
  - by rewrite field_set_eq.
Qed.

Lemma flags_kept_other (d : Doc) (k1 k2 : string) (v1 v2 : value) :
  k1 ≠ "isRemoved" → k1 ≠ "isOpen" → k2 ≠ "isRemoved" → k2 ≠ "isOpen" →
  flags_kept d (store.merge d [(k1, v1); (k2, v2)]).
Proof.
  intros. unfold store.merge. simpl. split; intros H'; by rewrite !field_set_ne.
Qed.

Lemma rooms_kept_removeMutual_forEach (userAChats : list string) (softRemove : value)
  (ids : list string) (st : Store) :
  rooms_kept st (removeMutual_forEach userAChats softRemove ids st).2.
Proof.
  revert st. induction ids as [|id ids IH]; intros st; simpl; [apply rooms_kept_refl |].
  destruct (decide (id = "")); simpl; [apply rooms_kept_refl |].
  eapply rooms_kept_trans; [| apply IH].
  destruct (includes userAChats id); [| apply rooms_kept_refl].
  destruct (truthy softRemove).
  - apply rooms_kept_update, flags_kept_removed.
  - apply rooms_kept_delete.
Qed.

Lemma rooms_kept_joinChatRoom_then (st : Store) (member : value) (p : pending_get) :
  rooms_kept st (joinChatRoom_then st member p).1.
Proof.
  unfold joinChatRoom_then. destruct p.2 as [room|]; [| apply rooms_kept_refl].
  destruct (truthy (field room "isRemoved")); [apply rooms_kept_refl |].
  destruct (truthy (field room "isOpen")); simpl; [| apply rooms_kept_refl].
  destruct (field room "members"); try apply rooms_kept_refl.
  pose proof (rooms_kept_update st p.1
                [("members", VArr (items ++ [member])); ("isOpen", VBool false)]
                (fun d => flags_kept_joined d _)) as H.
  destruct (do_update _ _ _) as [st' [[]|e]]; exact H.
Qed.

(** The entries of a room are never stored at the path of a room. *)
Lemma messages_not_room (ref : value) (messages : list string) (newId key : string) :
  collection_of ref "messages" = Normal messages →
  messages ++ [newId] ≠ ["ChatRooms"; key].
Proof.
  unfold collection_of. destruct ref; try discriminate. intros [= <-].
  rewrite <- app_assoc. simpl.
  destruct path as [|x0 [|x1 [|x2 path]]]; simpl; discriminate.
Qed.

(** X8.  No operation on an existing room takes it back: after a call of
    [joinChatRoom], [setNewTitle], [remove], [removeMutualChatRooms],
    [sendMessage], [updateBody] or [Message.remove], whatever its
    arguments and however it ends, every room document in the store was
    there before the call, is still removed if it was removed, and is
    still closed if it was closed. *)
Theorem rooms_never_go_back (now : Z) (newId : string) (st : Store) :
  (∀ member, rooms_kept st (joinChatRoom_run st member).1) ∧
  (∀ this title onComplete, rooms_kept st (setNewTitle st this title onComplete).2) ∧
  (∀ this softRemove, rooms_kept st (rm_store (remove st this softRemove))) ∧
  (∀ userA userB softRemove,
     rooms_kept st (removeMutualChatRooms st userA userB softRemove).2) ∧
  (∀ this body from, rooms_kept st (sendMessage now newId st this body from).2) ∧
  (∀ this newBody callback, rooms_kept st (updateBody now st this newBody callback).2) ∧
  (∀ this, rooms_kept st (Message_remove st this).2).
Proof.
  refine (conj _ (conj _ (conj _ (conj _ (conj _ (conj _ _)))))).
  - intros member. destruct (joinChatRoom st member) as [p|e] eqn:Hj.
    2:{ rewrite (joinChatRoom_run_thrown _ _ _ Hj). apply rooms_kept_refl. }
    apply joinChatRoom_inv in Hj as (key & Hid & Hkey & ->).
    rewrite (joinChatRoom_run_eq _ _ _ Hid Hkey). cbv zeta.
    pose proof (rooms_kept_joinChatRoom_then st member
                  (["ChatRooms"; key], st !! ["ChatRooms"; key])) as H.
    destruct (joinChatRoom_then _ _ _) as [st' [room'|e]]; simpl in H; [| exact H].
    destruct (joinChatRoom_updated _ _ _ _) as [[g|] r] eqn:E; simpl; [| exact H].
    apply joinChatRoom_updated_inv in E as (u & c & _ & _ & -> & _).
    eapply rooms_kept_trans; [exact H |]. apply rooms_kept_frame.
    intros key'. by apply addToMemberConversations_then_other.
  - intros this title onComplete. unfold setNewTitle.
    destruct (_ || _); [apply rooms_kept_refl |].
    destruct (ChatRoom.chatRoomRef this); try apply rooms_kept_refl.
    assert (H : rooms_kept st (do_update st path [("title", title)]).1).
    { apply rooms_kept_update. intros d. unfold store.merge. simpl.
      split; intros H; by rewrite field_set_ne. }
    by destruct onComplete.
  - intros this softRemove. unfold remove.
    destruct (ChatRoom.chatRoomRef this); try apply rooms_kept_refl.
    destruct (truthy softRemove); simpl.
    + apply rooms_kept_update, flags_kept_removed.
    + apply rooms_kept_delete.
  - intros userA userB softRemove. unfold removeMutualChatRooms.
    destruct (_ ≫= _) as [[userAChats userBChats]|e]; [| apply rooms_kept_refl].
    apply rooms_kept_removeMutual_forEach.
  - intros this body from. unfold sendMessage, new_Message.
    repeat case_match; simpl; try apply rooms_kept_refl.
    all: apply rooms_kept_frame; intros key; unfold store.set.
    all: apply lookup_insert_ne; by eapply messages_not_room.
  - intros this newBody callback. unfold updateBody.
    destruct (_ || _); [apply rooms_kept_refl |].
    destruct (Message.messageRef this); try apply rooms_kept_refl.
    assert (H : rooms_kept st (do_update st path
                                 [("body", newBody); ("updatedAt", VNum now)]).1).
    { apply rooms_kept_update. intros d. by apply flags_kept_other. }
    by destruct callback.
  - intros this. unfold Message_remove.
    destruct (Message.messageRef this); try apply rooms_kept_refl.
    apply rooms_kept_delete.
Qed.

Lemma rooms_never_go_back_witness :
  ∃ d, sample.st_removed !! ["ChatRooms"; "r1"] = Some d ∧
       flags_kept d (store.merge (sample.room [sample.stored_member "u1"] true true)
                       [("title", VStr "Trip 2")]).
Proof.
  destruct (rooms_never_go_back 0 "m1" sample.st_removed) as (_ & Htitle & _).
  apply (Htitle sample.chat (VStr "Trip 2") true "r1"). reflexivity.
Defined.

(** ** Changing a title, editing and removing a message *)

(** X9.  [setNewTitle] with a non-empty string title, on a room object
    bound to a reference: a stored room gets the new title and keeps
    every other field, whatever its [isOpen] and [isRemoved] are; when
    the document is missing nothing is written; no other document
    changes; and in every case the call returns normally when a callback
    was passed and throws a [TypeError], after the write, when none
    was. *)
Theorem setNewTitle_effect (st : Store) (this : ChatRoom.t) (ref : list string)
  (title : value) (onComplete : bool) :
  ChatRoom.chatRoomRef this = VRef ref → not_a_name title = false →
  let r := setNewTitle st this title onComplete in
  r.1 = (if onComplete then Normal () else Throw TypeError) ∧
  (∀ room, st !! ref = Some room →
     ∃ room', r.2 !! ref = Some room' ∧ field room' "title" = title ∧
              ∀ k, k ≠ "title" → obj_get k room' = obj_get k room) ∧
  (st !! ref = None → r.2 = st) ∧
  (∀ p, p ≠ ref → r.2 !! p = st !! p).
Proof.
  intros Href Htitle. unfold not_a_name in Htitle. cbv zeta.
  unfold setNewTitle. rewrite orb_comm, Htitle, Href.
  assert (E : (if onComplete then (Normal (), (do_update st ref [("title", title)]).1)
               else (Throw TypeError, (do_update st ref [("title", title)]).1))
              = (if onComplete then Normal () else Throw TypeError,
                 (do_update st ref [("title", title)]).1)) by by destruct onComplete.
  rewrite E. simpl. split; [done |]. split; [| split].
  - intros room Hroom. rewrite (do_update_present _ _ _ _ Hroom). simpl.
    rewrite lookup_insert_eq. eexists. split; [done |].
    unfold store.merge. simpl. split; [apply field_set_eq |].
    intros k Hk. by rewrite obj_get_set_ne.
  - intros Hnone. by rewrite (do_update_absent _ _ _ Hnone).
  - intros p Hp. rewrite do_update_lookup. by rewrite decide_False.
Qed.

Lemma setNewTitle_effect_witness :
  (setNewTitle sample.st_removed sample.chat (VStr "Trip 2") true).1 = Normal () ∧
  (setNewTitle ∅ sample.chat (VStr "Trip 2") true).2 = ∅.
Proof.
  destruct (setNewTitle_effect sample.st_removed sample.chat sample.r1 (VStr "Trip 2") true
              eq_refl eq_refl) as (H1 & _).
  destruct (setNewTitle_effect ∅ sample.chat sample.r1 (VStr "Trip 2") true
              eq_refl eq_refl) as (_ & _ & H3 & _).
  split; [exact H1 | apply H3; reflexivity].
Defined.



(** ** Sending a message, continued *)

Lemma in_neither_member (this : ChatRoom.t) (m0 m1 u0 u1 x : value) :
  ChatRoom.members this = VArr [m0; m1] →
  get_prop m0 "userId" = Normal u0 → get_prop m1 "userId" = Normal u1 →
  strict_eq u0 x = true ∨ strict_eq u1 x = true →
  in_neither true this (Normal x) = Normal false.
Proof.
  intros Hm H0 H1 Hx. unfold in_neither, member_differs. simpl. rewrite Hm. simpl.
  rewrite H0. simpl. destruct (strict_eq u0 x) eqn:E0; simpl; [done |].
  rewrite H1. simpl. destruct Hx as [Hx|Hx]; [discriminate |]. by rewrite Hx.
Qed.

(** The constructor on a valid body and a string [from] that passes the
    membership check, for a message that is sent and for one that is
    rebuilt from a stored reference. *)
Lemma new_Message_string (now : Z) (newId : string) (st : Store) (this : ChatRoom.t)
  (body : value) (u : string) (fromRef : value) :
  not_a_name body = false → u ≠ "" →
  in_neither true this (Normal (VStr u)) = Normal false →
  new_Message now newId st body (VStr u) this fromRef =
  if lodash.isEmpty fromRef then
    match collection_of (ChatRoom.chatRoomRef this) "messages" with
    | Throw e => (Throw e, st)
    | Normal messages =>
        (Normal (Message.mk body (VStr u) this (VNum now) (VRef (messages ++ [newId]))
                   VUndefined),
         store.set st (messages ++ [newId])
           [("body", body); ("from", VStr u); ("createdAt", VNum now)])
    end
  else (Normal (Message.mk body (VStr u) this (VNum now) fromRef VUndefined), st).
Proof.
  intros Hbody Hu Hin. unfold not_a_name in Hbody. unfold new_Message.
  rewrite Hbody. cbn [lodash.isEmpty lodash.isString lodash.isObject].
  rewrite bool_decide_eq_false_2 by done. rewrite Hin.
  by cbn [in_neither].
Qed.

(** X11.  In a room object bound to a reference and with two members, a
    message with a non-empty string body sent by a member, named by the
    id string or by an object with that [userId], is stored under a new
    key in the messages of the room with the body, the sender's id and
    [createdAt = now], whatever the room's [isOpen] and [isRemoved] are
    and whether or not the room document exists.  When the id is a
    non-empty string, the feed callback of the same room object rebuilds
    from the stored entry exactly the message that was sent. *)
Theorem sendMessage_member (now now' : Z) (newId : string) (st : Store) (this : ChatRoom.t)
  (path : list string) (body from m0 m1 u0 u1 x : value) :
  ChatRoom.chatRoomRef this = VRef path → ChatRoom.members this = VArr [m0; m1] →
  get_prop m0 "userId" = Normal u0 → get_prop m1 "userId" = Normal u1 →
  not_a_name body = false → lodash.isEmpty from = false →
  from_userId from = Some x →
  strict_eq u0 x = true ∨ strict_eq u1 x = true →
  let ref := path ++ ["messages"; newId] in
  let entry := [("body", body); ("from", x); ("createdAt", VNum now)] in
  let sent := Message.mk body x this (VNum now) (VRef ref) VUndefined in
  sendMessage now newId st this body from = (Normal sent, <[ref := entry]> st) ∧
  (∀ u, x = VStr u → u ≠ "" → newId ≠ "" →
     on_snapshot now' (<[ref := entry]> st) this [added_change newId entry]
     = ([sent], None)).
Proof.
  intros Href Hm H0 H1 Hbody Hfe Hx Hmem. cbv zeta.
  pose proof (in_neither_member this m0 m1 u0 u1 x Hm H0 H1 Hmem) as Hin.
  split.
  - unfold sendMessage.
    destruct from as [| | | |s| |fields|]; try discriminate; simpl in Hx.
    + injection Hx as <-. simpl in Hfe. apply bool_decide_eq_false in Hfe.
      rewrite (new_Message_string _ _ _ _ _ _ _ Hbody Hfe Hin). simpl.
      rewrite Href. simpl. by rewrite <- app_assoc.
    + unfold new_Message. unfold not_a_name in Hbody. rewrite Hbody, Hfe.
      change (get_prop (VObj fields) "userId")
        with (Normal (default VUndefined (obj_get "userId" fields))).
      rewrite Hx. change (default VUndefined (Some x)) with x.
      change (lodash.isObject (VObj fields)) with true.
      change (lodash.isString (VObj fields)) with false.
      rewrite Hin. cbn [in_neither]. rewrite Href. simpl. by rewrite <- app_assoc.
  - intros u -> Hu Hid. simpl. unfold message_of_change. rewrite Href. simpl.
    rewrite decide_False by done. simpl.
    change (field [("body", body); ("from", VStr u); ("createdAt", VNum now)] "body")
      with body.
    change (field [("body", body); ("from", VStr u); ("createdAt", VNum now)] "from")
      with (VStr u).
    rewrite (new_Message_string _ _ _ _ _ _ _ Hbody Hu Hin). simpl. done.
Qed.

Lemma sendMessage_member_witness :
  sendMessage 9 "m2" sample.st_closed sample.chat (VStr "hello") (sample.member "u2")
  = (Normal (Message.mk (VStr "hello") (VStr "u2") sample.chat (VNum 9)
               (VRef (sample.r1 ++ ["messages"; "m2"])) VUndefined),
     <[sample.r1 ++ ["messages"; "m2"]
       := [("body", VStr "hello"); ("from", VStr "u2"); ("createdAt", VNum 9)]]>
       sample.st_closed).
Proof.
  destruct (sendMessage_member 9 10 "m2" sample.st_closed sample.chat sample.r1
              (VStr "hello") (sample.member "u2") _ _ _ _ (VStr "u2")
              eq_refl eq_refl eq_refl eq_refl eq_refl eq_refl eq_refl
              (or_intror eq_refl)) as [H _].
  exact H.
Defined.

(** X12.  In a room object with a single member, that member can send;
    for any other non-empty id string the constructor reads the [userId]
    of a second member that is not there and throws a [TypeError], not
    the membership error; nothing is stored. *)
Theorem sendMessage_single_member (now : Z) (newId : string) (st : Store)
  (this : ChatRoom.t) (path : list string) (body m0 : value) (u0 s : string) :
  ChatRoom.chatRoomRef this = VRef path → ChatRoom.members this = VArr [m0] →
  get_prop m0 "userId" = Normal (VStr u0) →
  not_a_name body = false → s ≠ "" →
  (s = u0 →
   sendMessage now newId st this body (VStr s)
   = (Normal (Message.mk body (VStr s) this (VNum now)
                (VRef (path ++ ["messages"; newId])) VUndefined),
      <[path ++ ["messages"; newId]
        := [("body", body); ("from", VStr s); ("createdAt", VNum now)]]> st)) ∧
  (s ≠ u0 → sendMessage now newId st this body (VStr s) = (Throw TypeError, st)).
Proof.
  intros Href Hm H0 Hbody Hs. unfold sendMessage. split.
  - intros ->. rewrite (new_Message_string _ _ _ _ _ _ _ Hbody Hs).
    + simpl. rewrite Href. simpl. by rewrite <- app_assoc.
    + unfold in_neither, member_differs. simpl. rewrite Hm. simpl. rewrite H0. simpl.
      by rewrite bool_decide_eq_true_2.
  - intros Hne. unfold not_a_name in Hbody. unfold new_Message.
    rewrite Hbody. simpl. rewrite bool_decide_eq_false_2 by done.
    unfold in_neither, member_differs. simpl. rewrite Hm. simpl. rewrite H0. simpl.
    rewrite bool_decide_eq_false_2 by done. done.
Qed.

Lemma sendMessage_single_member_witness :
  sendMessage 9 "m2" sample.st_open sample_messages.single (VStr "hello") (VStr "u2")
  = (Throw TypeError, sample.st_open).
Proof.
  assert (Hs : "u2" ≠ "") by discriminate.
  assert (Hne : "u2" ≠ "u1") by discriminate.
  destruct (sendMessage_single_member 9 "m2" sample.st_open sample_messages.single
              sample.r1 (VStr "hello") _ "u1" "u2" eq_refl eq_refl eq_refl eq_refl Hs)
    as [_ H].
  exact (H Hne).
Defined.

(** X13.  A message rebuilt from a stored reference is never written
    back: the constructor called with a reference leaves the store as it
    is, whatever the body, the sender and the room are and whether it
    returns or throws. *)
Theorem new_Message_from_ref (now : Z) (newId : string) (st : Store)
  (body from : value) (this : ChatRoom.t) (ref : list string) :
  (new_Message now newId st body from this (VRef ref)).2 = st.
Proof. unfold new_Message. repeat case_match; simpl in *; done. Qed.



(** ** Listing the rooms of a user, continued *)

Lemma forEach_get_keys (st : Store) (ids : list string) :
  Forall (fun id => id ≠ "") ids →
  forEach_get st ids = (fun id => (["ChatRooms"; id], st !! ["ChatRooms"; id])) <$> ids.
Proof.
  induction 1 as [|id ids Hid _ IH]; simpl; [done |].
  rewrite decide_False by done. simpl. by rewrite IH.
Qed.

Lemma forEach_get_length (st : Store) (ids : list string) :
  (length (forEach_get st ids) ≤ length ids)%nat.
Proof.
  induction ids as [|id ids IH]; simpl; [done |].
  destruct (decide (id = "")); simpl; lia.
Qed.

(** The reads of [forEach_get] are of the listed ids. *)
Lemma forEach_get_elem (st : Store) (ids : list string) (g : pending_get) :
  g ∈ forEach_get st ids → ∃ id, id ∈ ids ∧ g = (["ChatRooms"; id], st !! ["ChatRooms"; id]).
Proof.
  induction ids as [|id ids IH]; simpl; [intros H; by inversion H |].
  destruct (decide (id = "")); simpl; [intros H; by inversion H |].
  intros [->|Hin]%elem_of_cons.
  - exists id. split; [apply list_elem_of_here | done].
  - destruct (IH Hin) as (id' & Hid' & ->). exists id'.
    split; [by apply list_elem_of_further | done].
Qed.

(** With every read building a room, [onComplete] is called when the last
    read comes back, and only then. *)
Lemma foldl_room_fetched_all (n_ids : nat) (l : list pending_get) (acc : fan_in) :
  Forall (fun g => builds g = true) l → l ≠ [] →
  (length (fi_list acc) + length l)%nat = n_ids → fi_calls acc = [] →
  ∃ chats, fi_calls (foldl (room_fetched n_ids) acc l) = [OnComplete VUndefined (Some chats)] ∧
           length chats = n_ids.
Proof.
  intros Hl. revert acc. induction Hl as [|g l Hg Hl IH]; intros acc Hne Hlen Hcalls;
    [done |].
  simpl. unfold room_fetched at 2. unfold builds in Hg.
  destruct g.2 as [snap|]; [| discriminate].
  destruct (chat_of_snapshot g.1 snap) as [newChat|e]; [| discriminate].
  destruct l as [|g' l'].
  - simpl in *. rewrite decide_True by (rewrite length_app; simpl; lia).
    rewrite Hcalls. simpl. eexists. split; [done |]. rewrite length_app. simpl. lia.
  - apply IH; [done | | ].
    + simpl. rewrite length_app. simpl in *. lia.
    + simpl. rewrite decide_False; [done |]. rewrite length_app. simpl in *. lia.
Qed.

(** Reads that build no room do not count. *)
Lemma foldl_room_fetched_builds (n_ids : nat) (l : list pending_get) (acc : fan_in) :
  (length (fi_list acc) + length (filter (fun g => builds g = true) l) < n_ids)%nat →
  fi_calls (foldl (room_fetched n_ids) acc l) = fi_calls acc.
Proof.
  revert acc. induction l as [|g l IH]; intros acc Hlt; simpl; [done |].
  rewrite filter_cons in Hlt. destruct (builds g) eqn:Hb.
  - rewrite decide_True in Hlt by done. simpl in Hlt. unfold room_fetched at 2.
    destruct g.2 as [snap|]; [| apply IH; lia].
    destruct (chat_of_snapshot g.1 snap) as [newChat|e]; [| apply IH; lia].
    rewrite IH; simpl; rewrite length_app; simpl; [| lia].
    rewrite decide_False; [done | lia].
  - rewrite decide_False in Hlt by done. unfold room_fetched at 2. unfold builds in Hb.
    destruct g.2 as [snap|]; [| by apply IH].
    destruct (chat_of_snapshot g.1 snap) as [newChat|e]; [discriminate | by apply IH].
Qed.

(** A stored room whose first two members are objects builds. *)
Lemma builds_two_members (ref : list string) (snap : Doc)
  (f0 f1 : list (string * value)) (rest : list value) :
  field snap "members" = VArr (VObj f0 :: VObj f1 :: rest) →
  builds (ref, Some snap) = true.
Proof. intros Hm. unfold builds, chat_of_snapshot, member_view. simpl. by rewrite Hm. Qed.

(** A stored room with fewer than two members does not. *)
Lemma builds_short (ref : list string) (snap : Doc) (items : list value) :
  field snap "members" = VArr items → (length items < 2)%nat →
  builds (ref, Some snap) = false.
Proof.
  intros Hm Hlen. unfold builds, chat_of_snapshot, member_view. simpl. rewrite Hm.
  destruct items as [|m0 [|m1 items]]; simpl in *; [done | | lia].
  destruct (get_prop m0 "userId"); simpl; [| done].
  destruct (get_prop m0 "username"); simpl; [| done].
  destruct (get_prop m0 "photo"); simpl; done.
Qed.

(** X15.  When the index record of the user lists at least one room and
    every listed room is stored with two members that are objects,
    [onComplete] is called exactly once, without an error and with as
    many rooms as the record lists, in whatever order the room reads
    come back. *)
Theorem getUserChatRooms_completes (st : Store) (p : pending_get) (data : Doc)
  (order : list pending_get → list pending_get) :
  p.2 = Some data → keys data ≠ [] →
  Forall (fun id => id ≠ "" ∧
            ∃ snap f0 f1 rest, st !! ["ChatRooms"; id] = Some snap ∧
                               field snap "members" = VArr (VObj f0 :: VObj f1 :: rest))
         (keys data) →
  (∀ l, order l ≡ₚ l) →
  ∃ chats, getUserChatRooms_then st p order = [OnComplete VUndefined (Some chats)] ∧
           length chats = length (keys data).
Proof.
  intros Hdata Hne Hall Horder. unfold getUserChatRooms_then. rewrite Hdata.
  assert (Hids : Forall (fun id => id ≠ "") (keys data)).
  { eapply Forall_impl; [exact Hall |]. by intros id [? _]. }
  pose proof (Horder (forEach_get st (keys data))) as Hperm.
  apply foldl_room_fetched_all; simpl.
  - rewrite Hperm. apply Forall_forall. intros g Hg.
    apply forEach_get_elem in Hg as (id & Hid & ->).
    rewrite Forall_forall in Hall.
    destruct (Hall id Hid) as (_ & snap & f0 & f1 & rest & -> & Hm).
    by eapply builds_two_members.
  - intros Hnil. rewrite Hnil in Hperm. apply Permutation_nil in Hperm.
    rewrite (forEach_get_keys _ _ Hids) in Hperm. apply fmap_nil_inv in Hperm. done.
  - rewrite Hperm, (forEach_get_keys _ _ Hids). by rewrite length_fmap.
  - done.
Qed.

Lemma getUserChatRooms_completes_witness :
  ∃ chats, getUserChatRooms_then sample.st_listed
             (["UsersChat"; "u1"], Some [("r1", VStr "r1")]) id
           = [OnComplete VUndefined (Some chats)] ∧
           length chats = 1.
Proof.
  apply (getUserChatRooms_completes sample.st_listed
           (["UsersChat"; "u1"], Some [("r1", VStr "r1")]) [("r1", VStr "r1")] id eq_refl).
  - discriminate.
  - apply Forall_cons_2; [| apply Forall_nil_2]. split; [discriminate |].
    eexists _, _, _, _. split; reflexivity.
  - done.
Defined.

(** X16.  A listed room that is stored with fewer than two members (a
    room that nobody has joined yet) keeps [getUserChatRooms] from ever
    calling [onComplete]: projecting the second member throws in the
    callback of that read, and the count of rooms found stays below the
    number of ids. *)
Theorem getUserChatRooms_short_room (st : Store) (p : pending_get) (data snap : Doc)
  (id : string) (items : list value) (order : list pending_get → list pending_get) :
  p.2 = Some data → id ∈ keys data →
  st !! ["ChatRooms"; id] = Some snap →
  field snap "members" = VArr items → (length items < 2)%nat →
  (∀ l, order l ≡ₚ l) →
  getUserChatRooms_then st p order = [].
Proof.
  intros Hdata Hin Hsnap Hm Hlen Horder. unfold getUserChatRooms_then. rewrite Hdata.
  rewrite foldl_room_fetched_builds; [done |]. simpl.
  rewrite (Horder (forEach_get st (keys data))).
  clear Hdata Horder. induction Hin as [id ids|id id' ids Hin IH]; simpl.
  - destruct (decide (id = "")); simpl; [lia |].
    rewrite filter_cons. unfold store.get. rewrite Hsnap.
    rewrite (builds_short _ _ _ Hm Hlen). rewrite decide_False by done.
    pose proof (length_filter (fun g => builds g = true) (forEach_get st ids)).
    pose proof (forEach_get_length st ids). lia.
  - destruct (decide (id' = "")); simpl; [lia |].
    rewrite filter_cons. specialize (IH Hsnap). case_decide; simpl; lia.
Qed.

Lemma getUserChatRooms_short_room_witness :
  getUserChatRooms_then
    (<[["UsersChat"; "u1"] := [("r1", VStr "r1")]]> sample.st_open)
    (["UsersChat"; "u1"], Some [("r1", VStr "r1")]) id = [].
Proof.
  apply (getUserChatRooms_short_room _ (["UsersChat"; "u1"], Some [("r1", VStr "r1")])
           [("r1", VStr "r1")]
           (sample.room [sample.stored_member "u1"] false true) "r1"
           [sample.stored_member "u1"] id eq_refl).
  - apply list_elem_of_here.
  - reflexivity.
  - reflexivity.
  - simpl. lia.
  - done.
Defined.

(** X17.  Who [getUserChatRooms] is asked for, and the user without a
    record.  A user may be given as a non-empty id string or as an
    object with that [userId]: the same index document is read.  When
    the user has no index document, [onComplete] is called once, with
    the text ["User has no chat rooms"] and no rooms; when the document
    is there but lists nothing, [onComplete] is never called. *)
Theorem getUserChatRooms_user (st : Store) (u : string) (fields : list (string * value)) :
  u ≠ "" → obj_get "userId" fields = Some (VStr u) →
  getUserChatRooms st (VStr u)
  = Normal (["UsersChat"; u], st !! ["UsersChat"; u]) ∧
  getUserChatRooms st (VObj fields) = getUserChatRooms st (VStr u) ∧
  (st !! ["UsersChat"; u] = None →
   getUserChatRooms_run st (VStr u)
   = Normal [OnComplete (VStr "User has no chat rooms") None]) ∧
  (st !! ["UsersChat"; u] = Some ([] : Doc) →
   getUserChatRooms_run st (VStr u) = Normal []).
Proof.
  intros Hu Hf.
  assert (E : getUserChatRooms st (VStr u)
              = Normal (["UsersChat"; u], st !! ["UsersChat"; u])).
  { unfold getUserChatRooms. simpl. rewrite bool_decide_eq_false_2 by done. simpl.
    by rewrite decide_False. }
  split; [done |]. split; [| split].
  - rewrite E. unfold getUserChatRooms. simpl.
    destruct fields as [|kv fields]; [discriminate |]. simpl in *.
    rewrite Hf. simpl. by rewrite decide_False.
  - intros Hnone. unfold getUserChatRooms_run. by rewrite E, Hnone.
  - intros Hempty. unfold getUserChatRooms_run. by rewrite E, Hempty.
Qed.

Lemma getUserChatRooms_user_witness :
  getUserChatRooms_run sample.st_open (VStr "u9")
  = Normal [OnComplete (VStr "User has no chat rooms") None] ∧
  getUserChatRooms sample.st_listed (sample.member "u1")
  = getUserChatRooms sample.st_listed (VStr "u1").
Proof.
  assert (Hu9 : "u9" ≠ "") by discriminate.
  assert (Hu1 : "u1" ≠ "") by discriminate.
  destruct (getUserChatRooms_user sample.st_open "u9" [("userId", VStr "u9")] Hu9 eq_refl)
    as (_ & _ & H & _).
  destruct (getUserChatRooms_user sample.st_listed "u1" [("userId", VStr "u1")] Hu1 eq_refl)
    as (_ & H' & _).
  split; [apply H; reflexivity | exact H'].
Defined.



(** ** Removing the rooms two users share, continued *)

(** X19.  [removeMutualChatRooms] needs both index records: when a user
    key is not a non-empty string the promise is rejected by the store,
    and when either user has no index document it is rejected with a
    [TypeError]; in both cases nothing has been written. *)
Theorem removeMutual_missing_record (st : Store) (userA userB softRemove : value) :
  (is_throw (store.doc [] "UsersChat" userA) = true ∨
   is_throw (store.doc [] "UsersChat" userB) = true →
   removeMutualChatRooms st userA userB softRemove
   = (Rejected (StoreError "invalid-argument"), st)) ∧
  (∀ a b, userA = VStr a → userB = VStr b → a ≠ "" → b ≠ "" →
     st !! ["UsersChat"; a] = None ∨ st !! ["UsersChat"; b] = None →
     removeMutualChatRooms st userA userB softRemove = (Rejected TypeError, st)).
Proof.
  split.
  - unfold removeMutualChatRooms, store.doc.
    destruct userA as [| | | |a| | |]; simpl; try done;
      destruct userB as [| | | |b| | |]; simpl;
      try (destruct (decide (a = "")); done).
    destruct (decide (a = "")); simpl; [done |].
    destruct (decide (b = "")); simpl; [done |]. intros [H|H]; discriminate.
  - intros a b -> -> Ha Hb Hnone. unfold removeMutualChatRooms. simpl.
    rewrite !decide_False by done. simpl. unfold store.get.
    destruct (st !! ["UsersChat"; a]) as [dA|]; simpl; [| done].
    destruct Hnone as [Hn|Hn]; [discriminate |]. by rewrite Hn.
Qed.

Lemma removeMutual_missing_record_witness :
  removeMutualChatRooms sample.st_open (VStr "u1") (VStr "u2") (VBool true)
  = (Rejected TypeError, sample.st_open) ∧
  removeMutualChatRooms sample.st_open VUndefined (VStr "u2") (VBool true)
  = (Rejected (StoreError "invalid-argument"), sample.st_open).
Proof.
  assert (H1 : "u1" ≠ "") by discriminate.
  assert (H2 : "u2" ≠ "") by discriminate.
  destruct (removeMutual_missing_record sample.st_open (VStr "u1") (VStr "u2") (VBool true))
    as [_ Hmissing].
  destruct (removeMutual_missing_record sample.st_open VUndefined (VStr "u2") (VBool true))
    as [Hkey _].
  split.
  - apply (Hmissing "u1" "u2" eq_refl eq_refl H1 H2). left. reflexivity.
  - apply Hkey. left. reflexivity.
Defined.

(** The store after [removeMutualChatRooms], document by document. *)
Lemma removeMutual_lookup (st : Store) (a b : string) (softRemove : value) (dA dB : Doc)
  (p : list string) :
  a ≠ "" → b ≠ "" →
  st !! ["UsersChat"; a] = Some dA → st !! ["UsersChat"; b] = Some dB →
  Forall (fun id => id ≠ "") (keys dB) →
  (removeMutualChatRooms st (VStr a) (VStr b) softRemove).1 = Resolved () ∧
  (removeMutualChatRooms st (VStr a) (VStr b) softRemove).2 !! p
  = if decide (Exists (fun id => id ∈ keys dA ∧ p = ["ChatRooms"; id]) (keys dB))
    then (if truthy softRemove then soft_removed <$> st !! p else None)
    else st !! p.
Proof.
  intros Ha Hb HA HB Hne. unfold removeMutualChatRooms. simpl.
  rewrite !decide_False by done. simpl. unfold store.get. rewrite HA, HB. simpl.
  split; [by apply removeMutual_forEach_resolved |].
  destruct (decide (Exists _ _)) as [Hex|Hnex].
  - apply Exists_exists in Hex as (id & Hin & HinA & ->).
    by apply removeMutual_forEach_shared.
  - apply removeMutual_forEach_other. intros id Hin HinA ->.
    apply Hnex, Exists_exists. eauto.
Qed.

(** X20.  For two users who both have an index record:
    [removeMutualChatRooms] leaves the same store whichever of the two
    users is named first, and a second call changes nothing more. *)
Theorem removeMutual_symmetric_idempotent (st : Store) (a b : string) (softRemove : value)
  (dA dB : Doc) :
  a ≠ "" → b ≠ "" →
  st !! ["UsersChat"; a] = Some dA → st !! ["UsersChat"; b] = Some dB →
  Forall (fun id => id ≠ "") (keys dA) → Forall (fun id => id ≠ "") (keys dB) →
  let r := removeMutualChatRooms st (VStr a) (VStr b) softRemove in
  removeMutualChatRooms st (VStr b) (VStr a) softRemove = r ∧
  removeMutualChatRooms r.2 (VStr a) (VStr b) softRemove = r.
Proof.
  intros Ha Hb HA HB HneA HneB. cbv zeta.
  assert (Hpair : ∀ x y : settled unit * Store,
             x.1 = Resolved () → y.1 = Resolved () → (∀ p, x.2 !! p = y.2 !! p) → x = y).
  { intros [x1 x2] [y1 y2]; simpl. intros -> -> H. f_equal. by apply map_eq. }
  split.
  - apply Hpair.
    + by apply (removeMutual_lookup st b a softRemove dB dA []).
    + by apply (removeMutual_lookup st a b softRemove dA dB []).
    + intros p.
      destruct (removeMutual_lookup st b a softRemove dB dA p) as [_ ->]; try done.
      destruct (removeMutual_lookup st a b softRemove dA dB p) as [_ ->]; try done.
      destruct (decide (Exists _ (keys dA))) as [H1|H1];
        destruct (decide (Exists _ (keys dB))) as [H2|H2]; try done.
      * apply Exists_exists in H1 as (id & Hin & Hin' & ->).
        destruct H2. apply Exists_exists. eauto.
      * apply Exists_exists in H2 as (id & Hin & Hin' & ->).
        destruct H1. apply Exists_exists. eauto.
  - destruct (removeMutual_lookup st a b softRemove dA dB ["UsersChat"; a]) as [R1 LA];
      try done.
    destruct (removeMutual_lookup st a b softRemove dA dB ["UsersChat"; b]) as [_ LB];
      try done.
    rewrite decide_False in LA.
    2:{ intros (id & _ & _ & ?)%Exists_exists. discriminate. }
    rewrite decide_False in LB.
    2:{ intros (id & _ & _ & ?)%Exists_exists. discriminate. }
    rewrite HA in LA. rewrite HB in LB.
    apply Hpair.
    + by apply (removeMutual_lookup _ a b softRemove dA dB []).
    + done.
    + intros p.
      destruct (removeMutual_lookup _ a b softRemove dA dB p Ha Hb LA LB HneB) as [_ ->].
      destruct (removeMutual_lookup st a b softRemove dA dB p) as [_ E]; try done.
      destruct (decide (Exists _ (keys dB))) as [H|H]; [| done].
      rewrite E. destruct (truthy softRemove); [| done].
      destruct (st !! p); simpl; [| done]. by rewrite soft_removed_idem.
Qed.

Lemma removeMutual_symmetric_idempotent_witness :
  let r := removeMutualChatRooms sample.st_mutual (VStr "a") (VStr "b") (VBool true) in
  removeMutualChatRooms sample.st_mutual (VStr "b") (VStr "a") (VBool true) = r ∧
  removeMutualChatRooms r.2 (VStr "a") (VStr "b") (VBool true) = r.
Proof.
  assert (Ha : "a" ≠ "") by discriminate.
  assert (Hb : "b" ≠ "") by discriminate.
  apply (removeMutual_symmetric_idempotent sample.st_mutual "a" "b" (VBool true)
           [("r1", VStr "r1"); ("r2", VStr "r2"); ("r3", VStr "r3")]
           [("r2", VStr "r2"); ("r3", VStr "r3"); ("r4", VStr "r4")]
           Ha Hb eq_refl eq_refl).
  - repeat (apply Forall_cons_2; [discriminate |]). apply Forall_nil_2.
  - repeat (apply Forall_cons_2; [discriminate |]). apply Forall_nil_2.
Defined.

(** ** Finding a room *)

(** Both constructors keep their first argument as the reference of the
    room object. *)
Lemma new_ChatRoom_ref (args : list value) (c : ChatRoom.t) :
  new_ChatRoom args = Normal c → ChatRoom.chatRoomRef c = default VUndefined (args !! 0).
Proof.
  unfold new_ChatRoom.
  destruct args as [|a0 [|a1 [|a2 args]]]; try (intros [= <-]; done).
  unfold ChatRoom_of_room.
  destruct (get_prop a1 "title"); simpl; [| discriminate].
  destruct (get_prop a1 "members"); simpl; [| discriminate].
  destruct (get_prop a1 "isRemoved"); simpl; [| discriminate].
  destruct (get_prop a1 "createdAt"); simpl; [| discriminate].
  destruct (get_prop a1 "isOpen"); simpl; [| discriminate].
  by intros [= <-].
Qed.

(** X21.  [findById] for a room key: an absent document gives one call
    of [onSuccess] with the text ["doc does not exist"] and no room; a
    stored room whose first two members are objects gives one call with
    a room object and no error, and that object has no [createdAt]; a
    stored room with fewer than two members gives no call at all; a key
    that is not a non-empty string makes the call throw. *)
Theorem findById_calls (st : Store) (key : string) :
  key ≠ "" →
  (st !! ["ChatRooms"; key] = None →
   findById_run st (VStr key) = Normal [OnSuccess (VStr "doc does not exist") None]) ∧
  (∀ snap f0 f1 rest,
     st !! ["ChatRooms"; key] = Some snap →
     field snap "members" = VArr (VObj f0 :: VObj f1 :: rest) →
     ∃ chat, findById_run st (VStr key) = Normal [OnSuccess VUndefined (Some chat)] ∧
             ChatRoom.createdAt chat = VUndefined) ∧
  (∀ snap items,
     st !! ["ChatRooms"; key] = Some snap → field snap "members" = VArr items →
     (length items < 2)%nat → findById_run st (VStr key) = Normal []) ∧
  (∀ uid, is_throw (store.doc [] "ChatRooms" uid) = true →
          findById_run st uid = Throw (StoreError "invalid-argument")).
Proof.
  intros Hkey.
  assert (E : findById st (VStr key)
              = Normal (["ChatRooms"; key], st !! ["ChatRooms"; key])).
  { unfold findById. simpl. by rewrite decide_False. }
  unfold findById_run. split; [| split; [| split]].
  - intros Hnone. by rewrite E, Hnone.
  - intros snap f0 f1 rest Hsnap Hm. rewrite E, Hsnap. simpl.
    unfold findById_then, chat_of_found, member_view. simpl. rewrite Hm. simpl.
    eexists. split; reflexivity.
  - intros snap items Hsnap Hm Hlen. rewrite E, Hsnap. simpl.
    unfold findById_then, chat_of_found, member_view. simpl. rewrite Hm.
    destruct items as [|m0 [|m1 items]]; simpl in *; [done | | lia].
    destruct (get_prop m0 "userId"); simpl; [| done].
    destruct (get_prop m0 "username"); simpl; [| done].
    destruct (get_prop m0 "photo"); simpl; done.
  - intros uid. unfold findById, store.doc.
    destruct uid; simpl; try done. destruct (decide (s = "")); simpl; done.
Qed.

Lemma findById_calls_witness :
  findById_run sample.st_open (VStr "r9")
  = Normal [OnSuccess (VStr "doc does not exist") None] ∧
  findById_run sample.st_open (VStr "r1") = Normal [].
Proof.
  assert (H9 : "r9" ≠ "") by discriminate.
  assert (H1 : "r1" ≠ "") by discriminate.
  destruct (findById_calls sample.st_open "r9" H9) as (Habsent & _).
  destruct (findById_calls sample.st_open "r1" H1) as (_ & _ & Hshort & _).
  split; [apply Habsent; reflexivity |].
  apply (Hshort (sample.room [sample.stored_member "u1"] false true)
           [sample.stored_member "u1"]); [reflexivity | reflexivity | simpl; lia].
Defined.

(** X22.  The room objects that [getUserChatRooms] and [findById] hand
    to their callbacks are built with the stored title in the place of
    the reference.  For a stored title that is a string, every method
    that goes through the reference throws on such an object and leaves
    the store and the listeners as they were: [remove], [setNewTitle]
    with a valid title, [getMessagesAndListen], and [sendMessage]. *)
Theorem listed_room_unusable (now : Z) (newId : string) (st : Store) (ref : list string)
  (snap : Doc) (t : string) (chat : ChatRoom.t) :
  chat_of_snapshot ref snap = Normal chat ∨ chat_of_found ref snap = Normal chat →
  field snap "title" = VStr t →
  ChatRoom.chatRoomRef chat = VStr t ∧
  (∀ softRemove,
     remove st chat softRemove
     = {| rm_returned := Throw TypeError; rm_store := st; rm_write := None |}) ∧
  (∀ title onComplete, not_a_name title = false →
     setNewTitle st chat title onComplete = (Throw TypeError, st)) ∧
  (∀ ls, getMessagesAndListen chat ls = (Throw TypeError, ls)) ∧
  (∀ body from, is_throw (sendMessage now newId st chat body from).1 = true ∧
                (sendMessage now newId st chat body from).2 = st).
Proof.
  intros Hchat Htitle.
  assert (Href : ChatRoom.chatRoomRef chat = VStr t).
  { destruct Hchat as [H|H].
    - unfold chat_of_snapshot in H.
      destruct (member_view _ 0) as [a|]; simpl in H; [| discriminate].
      destruct (member_view _ 1) as [b|]; simpl in H; [| discriminate].
      injection H as <-. simpl. done.
    - unfold chat_of_found in H.
      destruct (member_view _ 0) as [a|]; simpl in H; [| discriminate].
      destruct (member_view _ 1) as [b|]; simpl in H; [| discriminate].
      injection H as <-. simpl. done. }
  split; [done |]. split; [| split; [| split]].
  - intros softRemove. unfold remove. by rewrite Href.
  - intros title onComplete Ht. unfold not_a_name in Ht. unfold setNewTitle.
    by rewrite orb_comm, Ht, Href.
  - intros ls. unfold getMessagesAndListen. by rewrite Href.
  - intros body from. unfold sendMessage, new_Message. rewrite Href.
    repeat case_match; simpl in *; try done.
Qed.

Lemma listed_room_unusable_witness :
  ∃ chat,
    chat_of_found sample.r1
      (sample.room [sample.stored_member "u1"; sample.stored_member "u2"] false false)
    = Normal chat ∧
    rm_returned (remove sample.st_listed chat (VBool true)) = Throw TypeError.
Proof.
  eexists. split; [reflexivity |].
  destruct (listed_room_unusable 0 "m1" sample.st_listed sample.r1
              (sample.room [sample.stored_member "u1"; sample.stored_member "u2"] false false)
              "Trip" _ (or_intror eq_refl) eq_refl) as (_ & Hremove & _).
  by rewrite Hremove.
Defined.

(** ** The room a join returns *)



(** ** The listeners *)

(** X24.  Every call of [getMessagesAndListen] on a room object bound to
    a reference adds a listener and none is ever taken away: a batch of
    the room's messages reaches the listeners there were and the new
    one, a batch of another collection reaches only those there were,
    and after [n] calls on the same room object the callback runs [n]
    times on every batch. *)
Theorem getMessagesAndListen_accumulates (now : Z) (st : Store) (this : ChatRoom.t)
  (path : list string) (changes : list change) :
  ChatRoom.chatRoomRef this = VRef path →
  (∀ ls coll,
     feed_batch now st (getMessagesAndListen this ls).2 coll changes
     = feed_batch now st ls coll changes
       ++ (if decide (path ++ ["messages"] = coll)
           then [on_snapshot now st this changes] else [])) ∧
  (∀ n, feed_batch now st (listen_times n this) (path ++ ["messages"]) changes
        = replicate n (on_snapshot now st this changes)).
Proof.
  intros Href.
  assert (Hstep : ∀ ls coll,
             feed_batch now st (getMessagesAndListen this ls).2 coll changes
             = feed_batch now st ls coll changes
               ++ (if decide (path ++ ["messages"] = coll)
                   then [on_snapshot now st this changes] else [])).
  { intros ls coll. unfold getMessagesAndListen, feed_batch, collection_of.
    rewrite Href. cbn [snd]. unfold listeners in *.
    rewrite filter_app, fmap_app. f_equal.
    rewrite filter_cons, filter_nil. cbn [fst].
    destruct (decide (path ++ ["messages"] = coll)); done. }
  split; [done |].
  induction n as [|n IH]; [done |].
  change (listen_times (S n) this)
    with ((getMessagesAndListen this (listen_times n this)).2).
  rewrite Hstep, IH. rewrite decide_True by done. by rewrite replicate_S_end.
Qed.

Lemma getMessagesAndListen_accumulates_witness :
  feed_batch 9 sample.st_closed (listen_times 2 sample.chat) (sample.r1 ++ ["messages"])
    sample.mixed_batch
  = replicate 2 (on_snapshot 9 sample.st_closed sample.chat sample.mixed_batch).
Proof.
  apply (getMessagesAndListen_accumulates 9 sample.st_closed sample.chat sample.r1
           sample.mixed_batch eq_refl).
Defined.

(** ** Initialisation *)

(** X25.  [initializeFirebase] hands a configuration to [initializeApp]
    exactly when it is a non-empty object or a non-empty array; anything
    that is not an object (a string, a number, [null], [undefined]) is
    refused with the must-be-an-object error, and an empty object or
    array with the should-not-be-empty error. *)
Theorem initializeFirebase_accepts (configures : value) :
  (∀ c, initializeFirebase configures = Normal c →
        c = configures ∧
        ((∃ fields, configures = VObj fields ∧ fields ≠ []) ∨
         (∃ items, configures = VArr items ∧ items ≠ []) ∨
         (∃ path, configures = VRef path))) ∧
  (lodash.isObjectLike configures = false →
   initializeFirebase configures
   = Throw (InitializeAppError "The configures must be an object")) ∧
  (configures = VObj [] ∨ configures = VArr [] →
   initializeFirebase configures
   = Throw (InitializeAppError "The configures shouldn't be empty")) ∧
  (∀ fields, configures = VObj fields → fields ≠ [] →
             initializeFirebase configures = Normal configures) ∧
  (∀ items, configures = VArr items → items ≠ [] →
            initializeFirebase configures = Normal configures).
Proof.
  unfold initializeFirebase.
  refine (conj _ (conj _ (conj _ (conj _ _)))).
  - intros c. destruct configures as [| | | | |items|fields|path]; simpl; try discriminate.
    + case_bool_decide; [discriminate |]. intros [= <-]. split; [done |]. eauto.
    + destruct fields; [discriminate |]. intros [= <-]. split; [done |]. left. eauto.
    + intros [= <-]. split; [done |]. eauto.
  - intros H. by rewrite H.
  - intros [-> | ->]; done.
  - intros fields -> Hne. destruct fields; done.
  - intros items -> Hne. simpl. by rewrite bool_decide_eq_false_2.
Qed.

Lemma initializeFirebase_accepts_witness :
  initializeFirebase (VObj []) = Throw (InitializeAppError "The configures shouldn't be empty") ∧
  initializeFirebase (VStr "key")
  = Throw (InitializeAppError "The configures must be an object") ∧
  initializeFirebase (VArr [VNum 1]) = Normal (VArr [VNum 1]).
Proof.
  destruct (initializeFirebase_accepts (VObj [])) as (_ & _ & Hempty & _).
  destruct (initializeFirebase_accepts (VStr "key")) as (_ & Hobj & _).
  destruct (initializeFirebase_accepts (VArr [VNum 1])) as (_ & _ & _ & _ & Harr).
  split; [apply Hempty; by left |]. split; [apply Hobj; reflexivity |].
  apply (Harr [VNum 1]); [reflexivity | discriminate].
Defined.

(** ** From creation to listing *)

(** The store after [createChatRoom] with a single member who has no
    index record yet. *)
Lemma createChatRoom_single (now : Z) (newId : string) (st : Store) (title m m' : value)
  (u : string) :
  not_a_name title = false → check_member m = Normal m' →
  get_prop m' "userId" = Normal (VStr u) → st !! ["UsersChat"; u] = None →
  (createChatRoom_run now newId st title (VArr [m])).2
  = <[["UsersChat"; u] := [(newId, VStr newId)]]>
      (<[["ChatRooms"; newId] :=
           [("title", title); ("members", VArr [m']); ("createdAt", VNum now);
            ("isRemoved", VBool false); ("isOpen", VBool true)]]> st).
Proof.
  intros Htitle Hm Hu Hnone. unfold not_a_name in Htitle.
  destruct (check_member_userId _ _ Hm) as (u' & Hne & Hu').
  rewrite Hu in Hu'. injection Hu' as <-.
  unfold createChatRoom_run, createChatRoom, createChatRoom_then.
  rewrite Htitle. simpl. rewrite Hm. simpl. rewrite Hu. simpl.
  rewrite (addToMemberConversations_user _ _ Hne). simpl.
  unfold addToMemberConversations_then, store.get, store.set. simpl.
  rewrite lookup_insert_ne by done. by rewrite Hnone.
Qed.


